(* ===== verification/_CoqProject ===== *)
-Q . S2P
Prelude.v
JsString.v
JsValue.v
Hooks.v
Store.v
View.v
Dispatch.v
Session.v
Protocol.v
MultiFlight.v
Liveness.v
Typing.v
Json.v
App.v
Scroll.v
