(* ===== verification/Prelude.v ===== *)
(** * A verification development for the Odia tutor chat client

    The repository is a React single-page client (src/src/App.jsx,
    src/src/components/ChatInterface.jsx).  All of its logic lives in the
    function component [ChatInterface]: four [useState] cells (the
    transcript [messages], the draft [newMessage], the in-flight flag
    [isBotThinking] and the toast text [error]), the handlers
    [handleSendMessage], [handleClearChat] and the toast's dismiss button,
    the asynchronous dispatch [sendMessageToGemini] with its
    try/catch/finally, and the JSX, whose Send button and Enter-key handler
    decide when a dispatch may start.

    ** How the parts interact

    - The user edits the draft (textarea onChange), presses Enter or
      clicks Send; both call [handleSendMessage], which trims the draft,
      appends the user's message, starts [sendMessageToGemini] without
      awaiting it and clears the draft.  Only the Send button is disabled
      while [isBotThinking]; the Enter key is not.
    - [sendMessageToGemini] sets [isBotThinking], issues one POST and
      suspends; when the response and its JSON body settle, it classifies
      the outcome, appends one bot message through a functional updater
      (run by React while rendering, outside the try block), maybe sets
      [error], and in [finally] clears [isBotThinking].
    - After every event React re-renders; a plain object as a React child
      throws, and with no error boundary the tree unmounts for good.
    - Between the suspension and the settlement any other event can run:
      a second send through the Enter key, a clear, a dismiss, the
      settlement of another request.

    ** Files, in dependency order, and what they model

    - [Prelude] (this file): the [tutor] hint and rewrite databases, the
      state and exception monad [JsM] in which JavaScript's throw,
      try/catch and try/finally are written ([js_try_catch],
      [js_try_finally]), the simulation [js_sim] of such computations
      along an abstraction map with one lemma per combinator, and list
      counting lemmas.
    - [JsString]: strings as lists of UTF-16 code units, ECMAScript's
      WhiteSpace and LineTerminator classes ([is_js_whitespace]),
      [String.prototype.trim] ([trim], lines 78, 81, 83, 208), the
      source's literals ([lit]) and Number::toString on integers.
    - [JsValue]: the values of [response.json()] ([jsval]), truthiness,
      [||] ([js_or], line 33), [.error]/[.reply] ([get_field], a TypeError
      on null), and the template literal's ToString ([to_string], line 38),
      which throws on an object with its own [toString] field.
    - [Hooks]: the four hooks ([hooks], lines 4-7) inside React's instance
      of the component ([chat_state], which adds React's render error),
      the senders' strings, and the setters with
      React's semantics (updaters may throw; setters are no-ops once
      unmounted), [handleClearChat] (87-90), the dismiss button (180), the
      textarea's onChange (197).
    - [Store]: the interface [ChatStore] of the spec's state store
      (section 4.1) with its laws [ChatStoreLaws] (each setter commutes
      with the abstraction onto the spec's [conv_state]); the hooks of
      [Hooks] are an instance.
    - [View]: the JSX (lines 92-221) as a fallible [render]: placeholder,
      bubbles ([render_bubble]), typing indicator, toast ([render_toast])
      and the Send button's [send_disabled] (208).
    - [Dispatch]: [sendMessageToGemini] split at its await into
      [sendMessageToGemini_start] (23-29) and [sendMessageToGemini_resume]
      (24-74: [gemini_try], [gemini_catch], the finally block, and the
      updaters [error_updater], [reply_updater]); [handleSendMessage]
      (77-85); the spec's classification of outcomes ([spec_classify],
      [spec_effect]) and the outcomes on which the code meets it
      ([well_formed_outcome]).  Written once against [ChatStore];
      [resume_sim] transports every fact proved on [conv_state] to any
      lawful store.
    - [Session]: the UI as a transition system ([session_step]) over the
      state, the requests in flight and the clock, with events for every
      handler of the JSX and the settlement of any in-flight request in any
      order; [reachable] is parametrised by which events are admitted.
    - [Protocol]: the spec's Conversation Session Protocol (sections 3-5)
      as an abstract machine [proto_step] whose state holds the transcript,
      the one pending dispatch (its trimmed text) and the last error;
      [proto_of] reads a session as a state of the machine.
    - [MultiFlight]: the same protocol with the single-flight guard of
      [send] dropped ([multi_step]: the dispatches awaiting, in issue
      order, and a pending flag any settlement clears), and [m_of], which
      reads every session, Enter key included, as a state of it.
    - [Liveness]: settling the requests in flight in a given order
      ([drain]) and the states at rest.
    - [Typing]: the types section 3 of the spec gives a message, as
      predicates on the transcript.
    - [Json]: the request of lines 25-29 ([gemini_request]) and its body
      [JSON.stringify({ message })] with ECMAScript's QuoteJSONString
      ([quote_units]); a JSON string reader after RFC 8259
      ([json_string_body], [parse_message_body]) is the gateway's side.
    - [App]: src/src/App.jsx (lines 5-16), the heading around the chat.
    - [Scroll]: the effect on [messages] (lines 8-17): after which steps
      React runs it ([effect_runs]) and the clamped [scrollTo] it performs
      ([scroll_effect]).

    ** What is proved

    - Single flight and the spec's protocol (C1-C4): single flight holds
      when the Enter key is gated like the Send button
      ([gated_single_flight]) and fails as the code is written
      ([enter_key_breaks_single_flight]); with the Enter key gated and a
      gateway keeping its contract, every reachable session refines the
      spec's protocol machine, each step of the code being a step of the
      machine or a stutter ([gated_session_refines_protocol], a forward
      simulation proved by induction on [reachable]); as written, the code
      reaches a state the machine never does
      ([enter_key_escapes_protocol], through the machine's invariant that
      no two user messages are adjacent).
    - Multi-flight refinement (C5): as written, Enter key included, and
      with a gateway keeping its contract, every reachable session refines
      the spec's protocol machine with the single-flight guard dropped
      ([ungated_session_refines_multi]); the machine's invariant gives
      distinct ids in flight and [isBotThinking] backed by a request in
      flight.
    - Dispatch (C6-C8, C22-C29): refinement of the spec's contract on
      well-formed outcomes ([resume_refines_spec]); the finally guarantee
      ([resume_settles]); exactly one bot message per settlement; the
      functional behaviour of every branch, including those where the code
      departs from the spec (missing description, unparseable or null
      body, structured error objects, an updater that throws);
      [handleSendMessage] on blank and non-blank drafts.
    - Termination and liveness (C9, C10): from every reachable session,
      under any events, settling the requests in flight in any order that
      names each once (a permutation of their ids) terminates at rest with
      one answer per request ([drain_terminates_at_rest], by induction on
      the order); in every execution (a nat-indexed sequence of sessions
      and step labels) where the gateway answers every request, a typing
      indicator that is on is later off with a bot message last
      ([thinking_eventually_answered]).
    - Session invariants and behaviours (C11, C12, C16-C18, C20, C21): the
      dispatch accounting of section 3 for runs without a clear; no
      unmount when the gateway keeps its contract, and an unmount on a
      structured error; replies in settlement order; stale replies after a
      clear; the transcript is append-only and its timestamps ordered.
    - Types (C13, C19): under the gateway contract every text is a
      non-empty string and user texts are trimmed; a reply keeps its
      surrounding white space, unlike the spec's data model.
    - Request (C14, C15, C31, C32): the body a send issues reads back as
      the trimmed draft; QuoteJSONString round-trips every string of code
      units and writes no control character; its one-pass definition
      equals ECMA-262's, written independently over the string's code
      points with Table 73 and UnicodeEscape of its own.
    - View (C30): the render succeeds exactly on the states whose texts
      and error are values React renders as children.
    - JsString (C33): [trim] meets the declarative description of
      TrimString.
    The App shell and the scroll effect are modelled ([App], [scroll_effect],
    [effect_runs]) without a theorem of their own: what can be said of
    them restates their definitions.
    Each theorem with hypotheses has a witness that applies it to a
    concrete state; the counterexample runs are closed by [vm_compute].

    ** Bounds and fuel

    No definition uses fuel: every recursion is structural (on strings,
    values, message lists and event lists).  Runs are finite lists of
    events; the invariants hold for every finite run, and the liveness
    theorem quantifies over infinite executions, given as functions from
    [nat] to sessions and step labels (no coinduction).  Numbers are
    integers in [Z]; the JSON numbers the gateway may send are taken as
    integral (their printing in a template literal is the decimal one,
    exact below 10^21).  Code units are integers; the JSON theorems assume
    them 16-bit ([code_units]), as every JavaScript string is, which is
    what makes the four hexadecimal digits of [\u] escapes enough.

    ** Modelling choices

    - React applies functional updates in call order and re-renders between
      discrete user events, so each handler is a function of the state the
      previous event left; an updater is applied at its call, which gives
      the same state as applying it at the next render because it reads
      only [prev] and values it closed over.
    - The two awaits of [sendMessageToGemini] ([fetch] and
      [response.json()]) are one settlement event: nothing changes state
      between them.
    - [new Date()] reads the session clock, which only moves forward.

    ** Not modelled

    - [formatTimestamp] (lines 19-20): [toLocaleTimeString] depends on
      the host's locale and time zone, and the text is presentation only;
      CSS classes and the SVG.
    - The gateway server and the parsing of the response text: a
      settlement takes the parsed body (or its absence) as its input.
    - The spec's section 9 alternatives (a generation counter, cancelling
      on reset) are not code of the repository; the behaviour the code
      has, option (a), is what C18 states.

    ** Plan for later work

    - Setoid reasoning on stores up to [abstract], with [Proper] instances
      for the dispatch operations, should a proof need to rewrite under
      the abstraction rather than through [resume_abstract].
*)

From stdpp Require Export base list.
From Stdlib Require Export ZArith.

Create HintDb tutor.
Create Rewrite HintDb tutor.

(** ** A state and exception monad for JavaScript control flow *)

Section JsM.
Context {S E : Type}.

(** A computation reads and updates the state and either completes with
    a value or throws; updates made before a throw persist, as in
    JavaScript. *)
Definition JsM (A : Type) : Type := S -> (E + A) * S.

Definition js_ret {A} (a : A) : JsM A := fun s => (inr a, s).

Definition js_bind {A B} (m : JsM A) (k : A -> JsM B) : JsM B :=
  fun s => match m s with
           | (inl e, s') => (inl e, s')
           | (inr a, s') => k a s'
           end.

Definition js_throw {A} (e : E) : JsM A := fun s => (inl e, s).

Definition js_modify (f : S -> S) : JsM unit := fun s => (inr tt, f s).

(** A pure step that may throw: its completion, the state unchanged. *)
Definition js_lift {A} (r : E + A) : JsM A := fun s => (r, s).

(** [try { m } catch (e) { h e }] *)
Definition js_try_catch {A} (m : JsM A) (h : E -> JsM A) : JsM A :=
  fun s => match m s with
           | (inl e, s') => h e s'
           | r => r
           end.

(** [try { m } finally { f }]: [f] runs on every completion of [m]; if
    [f] completes normally, the completion of [m] is kept. *)
Definition js_try_finally {A} (m : JsM A) (f : JsM unit) : JsM A :=
  fun s => let '(r, s') := m s in
           match f s' with
           | (inl e, s'') => (inl e, s'')
           | (inr _, s'') => (r, s'')
           end.

(** A computation that never throws and only updates the state. *)
Definition js_pure_update {A} (m : JsM A) (f : S -> S) : Prop :=
  forall s, exists a, m s = (inr a, f s).

Lemma js_bind_ret_l {A B} (a : A) (k : A -> JsM B) s :
  js_bind (js_ret a) k s = k a s.
Proof. reflexivity. Qed.

Lemma js_bind_modify {B} f (k : unit -> JsM B) s :
  js_bind (js_modify f) k s = k tt (f s).
Proof. reflexivity. Qed.

Lemma js_bind_lift_ok {A B} (a : A) (k : A -> JsM B) s :
  js_bind (js_lift (inr a)) k s = k a s.
Proof. reflexivity. Qed.

Lemma js_bind_lift_err {A B} e (k : A -> JsM B) s :
  js_bind (js_lift (inl e)) k s = (inl e, s).
Proof. reflexivity. Qed.

Lemma js_bind_throw {A B} e (k : A -> JsM B) s :
  js_bind (js_throw e) k s = (inl e, s).
Proof. reflexivity. Qed.

Lemma js_try_catch_throw {A} e (h : E -> JsM A) s :
  js_try_catch (js_throw e) h s = h e s.
Proof. reflexivity. Qed.

Lemma js_try_catch_ok {A} (m : JsM A) h s a s' :
  m s = (inr a, s') -> js_try_catch m h s = (inr a, s').
Proof. unfold js_try_catch. intros ->. reflexivity. Qed.

Lemma js_try_catch_err {A} (m : JsM A) h s e s' :
  m s = (inl e, s') -> js_try_catch m h s = h e s'.
Proof. unfold js_try_catch. intros ->. reflexivity. Qed.

(** The finally block runs after every completion of the protected block:
    when it is a pure update, the final state is that update applied to
    whatever state the block left, and the block's completion is kept. *)
Lemma js_try_finally_pure {A} (m : JsM A) (f : JsM unit) g s :
  js_pure_update f g ->
  js_try_finally m f s = (fst (m s), g (snd (m s))).
Proof.
  intros Hf. unfold js_try_finally. destruct (m s) as [r s'].
  destruct (Hf s') as [[] ->]. reflexivity.
Qed.

Lemma js_pure_update_modify f : js_pure_update (js_modify f) f.
Proof. intros s. exists tt. reflexivity. Qed.

End JsM.

Arguments JsM : clear implicits.

#[export] Hint Rewrite @js_bind_ret_l @js_bind_modify @js_bind_throw
  @js_bind_lift_ok @js_bind_lift_err
  @js_try_catch_throw : tutor.
#[export] Hint Resolve js_pure_update_modify : tutor.

(** ** Simulation of computations along an abstraction map *)

Section JsM_sim.
Context {S T E : Type} (alpha : S -> T).

(** [m] on a concrete state completes as [m'] on its abstraction, and
    leaves a state whose abstraction is the one [m'] leaves. *)
Definition js_sim {A} (m : JsM S E A) (m' : JsM T E A) : Prop :=
  forall s, fst (m s) = fst (m' (alpha s)) /\ alpha (snd (m s)) = snd (m' (alpha s)).

Lemma js_sim_ret {A} (a : A) : js_sim (js_ret a) (js_ret a).
Proof. done. Qed.

Lemma js_sim_throw {A} e : js_sim (A:=A) (js_throw e) (js_throw e).
Proof. done. Qed.

Lemma js_sim_lift {A} (r : E + A) : js_sim (js_lift r) (js_lift r).
Proof. done. Qed.

Lemma js_sim_modify f g :
  (forall s, alpha (f s) = g (alpha s)) -> js_sim (js_modify f) (js_modify g).
Proof. intros Hfg s. simpl. by rewrite Hfg. Qed.

Lemma js_sim_bind {A B} m m' (k : A -> JsM S E B) k' :
  js_sim m m' -> (forall a, js_sim (k a) (k' a)) ->
  js_sim (js_bind m k) (js_bind m' k').
Proof.
  intros Hm Hk s. unfold js_bind. destruct (Hm s) as [H1 H2].
  destruct (m s) as [[e|a] s1], (m' (alpha s)) as [[e'|a'] t1];
    simpl in *; simplify_eq; subst; [done|]. apply Hk.
Qed.

Lemma js_sim_try_catch {A} (m : JsM S E A) m' h h' :
  js_sim m m' -> (forall e, js_sim (h e) (h' e)) ->
  js_sim (js_try_catch m h) (js_try_catch m' h').
Proof.
  intros Hm Hh s. unfold js_try_catch. destruct (Hm s) as [H1 H2].
  destruct (m s) as [[e|a] s1], (m' (alpha s)) as [[e'|a'] t1];
    simpl in *; simplify_eq; subst; [|done]. apply Hh.
Qed.

Lemma js_sim_try_finally {A} (m : JsM S E A) m' f f' :
  js_sim m m' -> js_sim f f' ->
  js_sim (js_try_finally m f) (js_try_finally m' f').
Proof.
  intros Hm Hf s. unfold js_try_finally. destruct (Hm s) as [H1 H2].
  destruct (m s) as [r s1], (m' (alpha s)) as [r' t1]; simpl in *; subst.
  destruct (Hf s1) as [H3 H4].
  destruct (f s1) as [[e|[]] s2], (f' (alpha s1)) as [[e'|[]] t2];
    simpl in *; simplify_eq; done.
Qed.
End JsM_sim.

#[export] Hint Resolve js_sim_ret js_sim_throw js_sim_lift : tutor.

(** Decomposes a simulation goal along the structure of the program. *)
Ltac js_sim_step :=
  match goal with
  | |- js_sim _ (js_bind _ _) (js_bind _ _) => apply js_sim_bind; [|intros ?]
  | |- js_sim _ (js_try_catch _ _) (js_try_catch _ _) => apply js_sim_try_catch; [|intros ?]
  | |- js_sim _ (js_try_finally _ _) (js_try_finally _ _) => apply js_sim_try_finally
  | |- js_sim _ (js_modify _) (js_modify _) => apply js_sim_modify; intros ?
  | |- js_sim _ (if ?b then _ else _) (if ?b then _ else _) => destruct b
  | |- js_sim _ (match ?x with _ => _ end) (match ?x with _ => _ end) => destruct x
  | |- js_sim _ _ _ => solve [eauto with tutor]
  end.

Declare Scope jsm_scope.
Delimit Scope jsm_scope with jsm.
Notation "'let*' x := m 'in' k" := (js_bind m (fun x => k))
  (at level 10, x name, m at level 100, k at level 200) : jsm_scope.
Notation "m ;; k" := (js_bind m (fun _ : unit => k))
  (at level 100, k at level 200, right associativity) : jsm_scope.

(** ** Shared list lemmas *)

(** Counting the elements that satisfy a boolean test. *)
Definition count_by {A} (p : A -> bool) (l : list A) : nat :=
  length (List.filter p l).

Lemma count_by_app {A} (p : A -> bool) l1 l2 :
  count_by p (l1 ++ l2) = count_by p l1 + count_by p l2.
Proof. unfold count_by. by rewrite List.filter_app, length_app. Qed.

Lemma count_by_singleton {A} (p : A -> bool) x :
  count_by p [x] = if p x then 1 else 0.
Proof. unfold count_by. simpl. by destruct (p x). Qed.

Lemma count_by_nil {A} (p : A -> bool) : count_by p [] = 0.
Proof. reflexivity. Qed.

#[export] Hint Rewrite @count_by_app @count_by_singleton @count_by_nil : tutor.

(** Rewrites with the monad and counting equations, then closes the goal. *)
Ltac tutor_simpl := autorewrite with tutor in *; simpl in *.

Ltac invc H := inversion H; subst; clear H.
