(* ===== verification/JsString.v ===== *)
(** * JavaScript strings and [String.prototype.trim]

    A JavaScript string is a sequence of UTF-16 code units; here a list of
    integers.  [trim] follows ECMAScript's TrimString: it removes the
    leading and trailing code units of the WhiteSpace and LineTerminator
    classes (every Space_Separator code point lies in the BMP, so a code
    unit test is exact).  ChatInterface.jsx calls [newMessage.trim()] at
    lines 78, 81, 83 and 208.  The file also holds the literals of the
    source, as code units, and the decimal printing of integral numbers used
    by template literals. *)

From S2P Require Import Prelude.
From Stdlib Require Import String Ascii.

Definition jsstring := list Z.

(** ** Character classes of ECMAScript (WhiteSpace and LineTerminator) *)

Definition is_js_whitespace (c : Z) : bool := (
  (* WhiteSpace: TAB, VT, FF, SP, NBSP, ZWNBSP *)
  (c =? 9) || (c =? 11) || (c =? 12) || (c =? 32) || (c =? 160) || (c =? 65279)
  (* the other Space_Separator code points *)
  || (c =? 5760) || ((8192 <=? c) && (c <=? 8202)) || (c =? 8239)
  || (c =? 8287) || (c =? 12288)
  (* LineTerminator: LF, CR, LS, PS *)
  || (c =? 10) || (c =? 13) || (c =? 8232) || (c =? 8233))%Z.

Definition ws (c : Z) : Prop := is_js_whitespace c = true.

#[export] Instance ws_dec c : Decision (ws c) := _.

(** ** TrimString *)

Fixpoint trim_start (s : jsstring) : jsstring :=
  match s with
  | [] => []
  | c :: s' => if is_js_whitespace c then trim_start s' else s
  end.

Definition trim_end (s : jsstring) : jsstring := rev (trim_start (rev s)).

(** [s.trim()] *)
Definition trim (s : jsstring) : jsstring := trim_end (trim_start s).

(** ** Literals and number printing *)

Fixpoint lit (s : string) : jsstring :=
  match s with
  | EmptyString => []
  | String a s' => Z.of_nat (nat_of_ascii a) :: lit s'
  end.

Fixpoint uint_digits (d : Decimal.uint) : jsstring :=
  match d with
  | Decimal.Nil => []
  | Decimal.D0 d => 48%Z :: uint_digits d
  | Decimal.D1 d => 49%Z :: uint_digits d
  | Decimal.D2 d => 50%Z :: uint_digits d
  | Decimal.D3 d => 51%Z :: uint_digits d
  | Decimal.D4 d => 52%Z :: uint_digits d
  | Decimal.D5 d => 53%Z :: uint_digits d
  | Decimal.D6 d => 54%Z :: uint_digits d
  | Decimal.D7 d => 55%Z :: uint_digits d
  | Decimal.D8 d => 56%Z :: uint_digits d
  | Decimal.D9 d => 57%Z :: uint_digits d
  end.

(** Number::toString on an integral number below 10^21 in magnitude. *)
Definition number_to_string (n : Z) : jsstring :=
  match Z.to_int n with
  | Decimal.Pos u => uint_digits u
  | Decimal.Neg u => 45%Z :: uint_digits u
  end.

(** ** The declarative description of a trimmed string *)

(** [t] neither starts nor ends with white space. *)
Definition no_ws_ends (t : jsstring) : Prop :=
  (forall c, head t = Some c -> ~ ws c) /\ (forall c, last t = Some c -> ~ ws c).

(** ** Lemmas on trim_start and trim_end *)

Lemma trim_start_app_ws p s :
  Forall ws p -> trim_start (p ++ s) = trim_start s.
Proof.
  induction 1 as [|c p Hc _ IH]; [done|]. simpl. unfold ws in Hc. by rewrite Hc.
Qed.

Lemma trim_start_no_ws s :
  (forall c, head s = Some c -> ~ ws c) -> trim_start s = s.
Proof.
  destruct s as [|c s]; [done|]. intros H. simpl.
  destruct (is_js_whitespace c) eqn:E; [|done]. exfalso. by apply (H c).
Qed.

Lemma trim_start_split s :
  exists p, s = p ++ trim_start s /\ Forall ws p /\
            (forall c, head (trim_start s) = Some c -> ~ ws c).
Proof.
  induction s as [|c s IH]; simpl.
  - exists []. split_and!; [done | constructor | done].
  - destruct (is_js_whitespace c) eqn:E.
    + destruct IH as (p & Hs & Hp & Hh). exists (c :: p).
      split_and!; [by rewrite Hs at 1 | by constructor | done].
    + exists []. split_and!; [done | constructor |].
      intros c' [= <-]. unfold ws. by rewrite E.
Qed.

(** [trim_start] is characterised by the split it makes. *)
Lemma trim_start_unique s p t :
  s = p ++ t -> Forall ws p -> (forall c, head t = Some c -> ~ ws c) ->
  trim_start s = t.
Proof. intros -> Hp Ht. rewrite trim_start_app_ws by done. by apply trim_start_no_ws. Qed.

Lemma head_rev_last (t : jsstring) : head (rev t) = last t.
Proof.
  induction t as [|x t _] using rev_ind; [done|].
  by rewrite rev_app_distr, last_snoc.
Qed.

Lemma trim_end_unique s t q :
  s = t ++ q -> Forall ws q -> (forall c, last t = Some c -> ~ ws c) ->
  trim_end s = t.
Proof.
  intros -> Hq Ht. unfold trim_end. rewrite rev_app_distr.
  rewrite (trim_start_unique _ (rev q) (rev t)); [by rewrite rev_involutive | done | |].
  - by apply Forall_rev.
  - intros c. rewrite head_rev_last. apply Ht.
Qed.

Lemma trim_end_split s :
  exists q, s = trim_end s ++ q /\ Forall ws q /\
            (forall c, last (trim_end s) = Some c -> ~ ws c).
Proof.
  destruct (trim_start_split (rev s)) as (p & Hs & Hp & Hh).
  exists (rev p). unfold trim_end. split_and!.
  - rewrite <- rev_app_distr, <- Hs. by rewrite rev_involutive.
  - by apply Forall_rev.
  - intros c. rewrite <- head_rev_last, rev_involutive. apply Hh.
Qed.

Lemma trim_start_nil_iff s : trim_start s = [] <-> Forall ws s.
Proof.
  split.
  - destruct (trim_start_split s) as (p & Hs & Hp & _). intros E.
    rewrite E, app_nil_r in Hs. by subst.
  - intros H. rewrite <- (app_nil_r s). rewrite trim_start_app_ws by done. done.
Qed.

Lemma Forall_rev_iff (P : Z -> Prop) (s : jsstring) : Forall P (rev s) <-> Forall P s.
Proof.
  split; [|apply Forall_rev]. intros H. apply Forall_rev in H. by rewrite rev_involutive in H.
Qed.

Lemma trim_end_nil_iff s : trim_end s = [] <-> Forall ws s.
Proof.
  unfold trim_end. rewrite <- Forall_rev_iff, <- trim_start_nil_iff.
  split; [intros H; apply (f_equal (@rev Z)) in H; by rewrite rev_involutive in H | by intros ->].
Qed.

Lemma head_app_nonempty (t q : jsstring) : t <> [] -> head (t ++ q) = head t.
Proof. by destruct t. Qed.

Lemma Forall_ws_head (s : jsstring) :
  Forall ws s -> (forall c, head s = Some c -> ~ ws c) -> s = [].
Proof. destruct s as [|c s]; [done|]. intros Hs Hh. inv Hs. exfalso. by apply (Hh c). Qed.

(** ** Properties of trim *)

Lemma trim_split s :
  exists p q, s = p ++ trim s ++ q /\ Forall ws p /\ Forall ws q /\ no_ws_ends (trim s).
Proof.
  destruct (trim_start_split s) as (p & Hs & Hp & Hh).
  destruct (trim_end_split (trim_start s)) as (q & Hts & Hq & Hl).
  exists p, q. unfold trim. split_and!; [by rewrite <- Hts | done | done | split; [|done]].
  destruct (decide (trim_end (trim_start s) = [])) as [->|Hne]; [done|].
  rewrite Hts in Hh. by rewrite head_app_nonempty in Hh.
Qed.

Lemma trim_unique s p t q :
  s = p ++ t ++ q -> Forall ws p -> Forall ws q -> no_ws_ends t -> trim s = t.
Proof.
  intros -> Hp Hq [Hh Hl]. unfold trim.
  destruct (decide (t = [])) as [->|Hne].
  - simpl. assert (trim_start (p ++ q) = []) as -> by by apply trim_start_nil_iff, Forall_app.
    done.
  - rewrite (trim_start_unique _ p (t ++ q)); [| done | done |].
    + by apply (trim_end_unique _ t q).
    + by rewrite head_app_nonempty.
Qed.

(** C33: [s.trim()] is the unique infix [t] of [s] such that [s] is
    white space, then [t], then white space, and [t] neither starts nor
    ends with white space. *)
Theorem trim_spec s t :
  trim s = t <->
  exists p q, s = p ++ t ++ q /\ Forall ws p /\ Forall ws q /\ no_ws_ends t.
Proof.
  split.
  - intros <-. apply trim_split.
  - intros (p & q & Hs & Hp & Hq & Ht). by apply (trim_unique s p t q).
Qed.

Lemma trim_all_ws s : Forall ws s -> trim s = [].
Proof.
  intros H. unfold trim. apply trim_end_nil_iff.
  rewrite (proj2 (trim_start_nil_iff s) H). constructor.
Qed.
