(* ===== verification/JsValue.v ===== *)
(** * JavaScript values of the gateway's JSON bodies

    [response.json()] yields a value of JSON's data model: null, booleans,
    numbers, strings, arrays and plain objects (fields in source order,
    duplicates allowed, the last one wins as [JSON.parse] defines).  The
    component reads them only through the property accesses [.error] and
    [.reply] (lines 33, 38, 47, 50), the operator [||] (line 33), truthiness
    ([if (data.reply)], line 47) and the template literal of line 38, whose
    [ToString] is modelled here with the cases where it throws. *)

From S2P Require Import Prelude JsString.
From Stdlib Require Import String.

Inductive jsval : Type :=
| JUndefined
| JNull
| JBool (b : bool)
| JNum (n : Z)
| JStr (s : jsstring)
| JArr (xs : list jsval)
| JObj (fields : list (jsstring * jsval)).

(** Induction on values with the hypothesis on every element of an array
    and on every field of an object. *)
Section jsval_rect.
Variable P : jsval -> Prop.
Hypothesis P_undefined : P JUndefined.
Hypothesis P_null : P JNull.
Hypothesis P_bool : forall b, P (JBool b).
Hypothesis P_num : forall n, P (JNum n).
Hypothesis P_str : forall s, P (JStr s).
Hypothesis P_arr : forall xs, Forall P xs -> P (JArr xs).
Hypothesis P_obj : forall fs, Forall (fun kv => P kv.2) fs -> P (JObj fs).

Fixpoint jsval_nested_ind (v : jsval) : P v :=
  match v with
  | JUndefined => P_undefined
  | JNull => P_null
  | JBool b => P_bool b
  | JNum n => P_num n
  | JStr s => P_str s
  | JArr xs =>
      P_arr xs ((fix go (xs : list jsval) : Forall P xs :=
                   match xs with
                   | [] => @List.Forall_nil _ P
                   | x :: xs' => @List.Forall_cons _ P x xs' (jsval_nested_ind x) (go xs')
                   end) xs)
  | JObj fs =>
      P_obj fs ((fix go (fs : list (jsstring * jsval)) : Forall (fun kv => P kv.2) fs :=
                   match fs with
                   | [] => @List.Forall_nil _ (fun kv => P kv.2)
                   | kv :: fs' =>
                       @List.Forall_cons _ (fun kv => P kv.2) kv fs' (jsval_nested_ind kv.2) (go fs')
                   end) fs)
  end.
End jsval_rect.

(** The exceptions the modelled code can raise. *)
Inductive js_error : Type :=
| TypeError        (* property access on null, ToString of a bad object *)
| SyntaxError      (* response.json() on a body that is not JSON *)
| FetchFailed.     (* fetch() rejected: network failure *)

(** ** Truthiness and [||] *)

Definition truthy (v : jsval) : bool :=
  match v with
  | JUndefined | JNull => false
  | JBool b => b
  | JNum n => negb (n =? 0)%Z
  | JStr s => negb (bool_decide (s = []))
  | JArr _ | JObj _ => true
  end.

(** [a || b]: the first operand if it is truthy, else the second. *)
Definition js_or (a b : jsval) : jsval := if truthy a then a else b.

(** ** Property access [v.error] and [v.reply] *)

(** The two property names the component reads. *)
Inductive field : Type := FError | FReply.

Definition field_name (f : field) : jsstring :=
  match f with
  | FError => lit "error"
  | FReply => lit "reply"
  end.

(** The value of the last field named [k]. *)
Definition lookup_field (k : jsstring) (fs : list (jsstring * jsval)) : option jsval :=
  fold_left (fun acc kv => if bool_decide (kv.1 = k) then Some kv.2 else acc) fs None.

(** [v.f]: a TypeError on null and undefined; a plain object gives its own
    field or undefined (neither name is inherited from Object.prototype);
    booleans, numbers, strings and arrays have no such property. *)
Definition get_field (v : jsval) (f : field) : js_error + jsval :=
  match v with
  | JUndefined | JNull => inl TypeError
  | JObj fs => inr (default JUndefined (lookup_field (field_name f) fs))
  | _ => inr JUndefined
  end.

(** ** ToString, as a template literal applies it *)

(** A plain object converts through OrdinaryToPrimitive with hint string:
    an own field [toString] (never callable in JSON) hides
    Object.prototype.toString, and Object.prototype.valueOf returns the
    object itself, so the conversion throws a TypeError; otherwise it is
    ["[object Object]"].  An array converts by [join(",")], where null and
    undefined elements print as the empty string. *)
Fixpoint to_string (v : jsval) : js_error + jsstring :=
  match v with
  | JUndefined => inr (lit "undefined")
  | JNull => inr (lit "null")
  | JBool true => inr (lit "true")
  | JBool false => inr (lit "false")
  | JNum n => inr (number_to_string n)
  | JStr s => inr s
  | JArr xs =>
      let fix join (xs : list jsval) (first : bool) : js_error + jsstring :=
        match xs with
        | [] => inr []
        | x :: xs' =>
            let sep := if first then [] else [44%Z] in
            match (match x with
                   | JUndefined | JNull => inr []
                   | _ => to_string x
                   end), join xs' false with
            | inr a, inr b => inr (sep ++ a ++ b)
            | inl e, _ => inl e
            | _, inl e => inl e
            end
        end in
      join xs true
  | JObj fs =>
      match lookup_field (lit "toString") fs with
      | Some _ => inl TypeError
      | None => inr (lit "[object Object]")
      end
  end.

(** ** Lemmas *)

Lemma js_or_truthy a b : truthy a = true -> js_or a b = a.
Proof. unfold js_or. by intros ->. Qed.

Lemma js_or_falsy a b : truthy a = false -> js_or a b = b.
Proof. unfold js_or. by intros ->. Qed.

Lemma truthy_str s : truthy (JStr s) = true <-> s <> [].
Proof. simpl. destruct (bool_decide_reflect (s = [])); naive_solver. Qed.

Lemma to_string_str s : to_string (JStr s) = inr s.
Proof. reflexivity. Qed.

Lemma to_string_obj fs :
  to_string (JObj fs) =
    match lookup_field (lit "toString") fs with
    | Some _ => inl TypeError
    | None => inr (lit "[object Object]")
    end.
Proof. reflexivity. Qed.

Lemma js_or_obj fs b : js_or (JObj fs) b = JObj fs.
Proof. reflexivity. Qed.

Lemma get_field_obj fs f :
  get_field (JObj fs) f = inr (default JUndefined (lookup_field (field_name f) fs)).
Proof. reflexivity. Qed.

#[export] Hint Rewrite js_or_truthy js_or_falsy using done : tutor.
#[export] Hint Rewrite to_string_str get_field_obj : tutor.
