(* ===== verification/Hooks.v ===== *)
(** * The hooks of [ChatInterface] and the handlers that only set them

    The state of [ChatInterface] is four [useState] cells (lines 4-7),
    the record [hooks]: [messages], [newMessage], [isBotThinking] and
    [error].  React's instance of the component, [chat_state], holds them
    and [render_error], which is React's, not the component's: it records
    that the render phase raised an exception.  A functional updater passed
    to [setMessages] runs during rendering, and with no error boundary in
    src/ an exception there unmounts the tree, after which every setter is
    a no-op ([when_mounted]).  A message's sender is the string the code
    writes ([SUser], [SBot]).  The handlers that only call setters are
    here: [handleClearChat], the toast's dismiss button and the textarea's
    onChange. *)

From S2P Require Import Prelude JsString JsValue.
From Stdlib Require Import String.

(** ** Data *)

(** The values of a message's [sender] field: the code writes the string
    user for the user's messages (line 81) and bot for the tutor's
    (lines 37, 50, 56 and 67). *)
Definition SUser : jsstring := lit "user".
Definition SBot : jsstring := lit "bot".

(** [{ sender, text, timestamp }]; [text] is whatever value the code put
    there (the gateway's [reply] need not be a string), and [timestamp],
    a [new Date()], is its time value in milliseconds. *)
Record message : Type := mkMessage {
  sender : jsstring;
  text : jsval;
  timestamp : Z
}.

(** The four [useState] cells of lines 4-7. *)
Record hooks : Type := mkHooks {
  messages : list message;
  newMessage : jsstring;
  isBotThinking : bool;
  error : jsval
}.

(** React's instance of the component: its hooks, and the exception, if
    any, that made rendering fail and unmounted the tree.  The hooks'
    fields read through the coercion. *)
Record chat_state : Type := mkChatState {
  state_hooks :> hooks;
  render_error : option js_error
}.

(** [useState([])], [useState] of the empty string, [useState(false)],
    [useState] of the empty string, on a freshly mounted tree. *)
Definition initial_state : chat_state :=
  mkChatState (mkHooks [] [] false (JStr [])) None.

(** A functional update of the transcript, as [setMessages(prev => ...)]:
    it may throw when React runs it. *)
Definition updater : Type := list message -> js_error + list message.

(** ** The hook setters *)

(** Setters act only while the tree is mounted. *)
Definition when_mounted (f : chat_state -> chat_state) (st : chat_state) : chat_state :=
  match render_error st with
  | None => f st
  | Some _ => st
  end.

Definition setMessages (f : updater) : chat_state -> chat_state :=
  when_mounted (fun st =>
    match f (messages st) with
    | inr ms => mkChatState (mkHooks ms (newMessage st) (isBotThinking st) (error st)) None
    | inl e => mkChatState st (Some e)
    end).

Definition setNewMessage (v : jsstring) : chat_state -> chat_state :=
  when_mounted (fun st =>
    mkChatState (mkHooks (messages st) v (isBotThinking st) (error st)) (render_error st)).

Definition setIsBotThinking (b : bool) : chat_state -> chat_state :=
  when_mounted (fun st =>
    mkChatState (mkHooks (messages st) (newMessage st) b (error st)) (render_error st)).

Definition setError (v : jsval) : chat_state -> chat_state :=
  when_mounted (fun st =>
    mkChatState (mkHooks (messages st) (newMessage st) (isBotThinking st) v) (render_error st)).

(** [handleClearChat] (lines 87-90). *)
Definition handleClearChat (st : chat_state) : chat_state :=
  setError (JStr []) (setMessages (fun _ => inr []) st).

(** The toast's close button, [onClick], which sets [error] to the empty string (line 180). *)
Definition dismissError (st : chat_state) : chat_state :=
  setError (JStr []) st.

(** The textarea's [onChange={(e) => setNewMessage(e.target.value)}]
    (line 197). *)
Definition handleChange (v : jsstring) (st : chat_state) : chat_state :=
  setNewMessage v st.
