(* ===== verification/Store.v ===== *)
(** * The conversation state store

    [ChatStore] is the interface the dispatch code is written against: the
    observers and setters of the spec's Conversation State Store (section
    4.1), with [ChatStoreLaws] stating what each setter does to every
    observer through the abstraction [abstract] onto the spec's state
    [conv_state].  The hooks of [Hooks] with their setters are one
    implementation, the spec's state itself another. *)

From S2P Require Import Prelude JsString JsValue Hooks.
From Stdlib Require Import String.

(** ** The store interface *)

Class ChatStore (S : Type) := {
  transcript : S -> list message;
  pending : S -> bool;
  last_error : S -> jsval;
  draft : S -> jsstring;
  failure : S -> option js_error;
  update_transcript : updater -> S -> S;
  set_pending : bool -> S -> S;
  set_error : jsval -> S -> S;
  set_draft : jsstring -> S -> S
}.

(** [store_append m] is [setMessages(prev => [...prev, m])]. *)
Definition store_append {S} `{ChatStore S} (m : message) : S -> S :=
  update_transcript (fun prev => inr (prev ++ [m])).

(** [store_reset] is what [handleClearChat] does: [setMessages([])] then [setError] of the empty string. *)
Definition store_reset {S} `{ChatStore S} (s : S) : S :=
  set_error (JStr []) (update_transcript (fun _ => inr []) s).

(** ** The spec's ConversationState *)

(** The spec's aggregate (section 3): transcript, pending flag, last error,
    and whether the tree is still mounted.  It has no draft. *)
Record conv_state : Type := mkConv {
  c_transcript : list message;
  c_pending : bool;
  c_error : jsval;
  c_failure : option js_error
}.

Definition conv_mounted (f : conv_state -> conv_state) (c : conv_state) : conv_state :=
  match c_failure c with
  | None => f c
  | Some _ => c
  end.

Definition conv_update (f : updater) : conv_state -> conv_state :=
  conv_mounted (fun c =>
    match f (c_transcript c) with
    | inr ms => mkConv ms (c_pending c) (c_error c) None
    | inl e => mkConv (c_transcript c) (c_pending c) (c_error c) (Some e)
    end).

Definition conv_set_pending (b : bool) : conv_state -> conv_state :=
  conv_mounted (fun c => mkConv (c_transcript c) b (c_error c) (c_failure c)).

Definition conv_set_error (v : jsval) : conv_state -> conv_state :=
  conv_mounted (fun c => mkConv (c_transcript c) (c_pending c) v (c_failure c)).

#[export] Instance conv_store : ChatStore conv_state := {
  transcript := c_transcript;
  pending := c_pending;
  last_error := c_error;
  draft := fun _ => [];
  failure := c_failure;
  update_transcript := conv_update;
  set_pending := conv_set_pending;
  set_error := conv_set_error;
  set_draft := fun _ c => c
}.

(** The abstraction of a store onto the spec's state. *)
Definition abstract {S} `{ChatStore S} (s : S) : conv_state :=
  mkConv (transcript s) (pending s) (last_error s) (failure s).

(** A lawful store: every setter commutes with [abstract] (the draft is
    invisible to it), and only [set_draft] changes the draft. *)
Class ChatStoreLaws (S : Type) `{ChatStore S} := {
  abstract_update f s : abstract (update_transcript f s) = update_transcript f (abstract s);
  abstract_set_pending b s : abstract (set_pending b s) = set_pending b (abstract s);
  abstract_set_error v s : abstract (set_error v s) = set_error v (abstract s);
  abstract_set_draft v s : abstract (set_draft v s) = abstract s;
  draft_set_draft v s : failure s = None -> draft (set_draft v s) = v;
  draft_update f s : draft (update_transcript f s) = draft s;
  draft_set_pending b s : draft (set_pending b s) = draft s;
  draft_set_error v s : draft (set_error v s) = draft s
}.

#[export] Hint Rewrite @abstract_update @abstract_set_pending @abstract_set_error
  @abstract_set_draft @draft_update @draft_set_pending @draft_set_error : tutor.

(** ** The component's hooks implement the interface *)

#[export] Instance chat_state_store : ChatStore chat_state := {
  transcript st := messages st;
  pending st := isBotThinking st;
  last_error st := error st;
  draft st := newMessage st;
  failure := render_error;
  update_transcript := setMessages;
  set_pending := setIsBotThinking;
  set_error := setError;
  set_draft := setNewMessage
}.

#[export] Instance chat_state_store_laws : ChatStoreLaws chat_state.
Proof.
  split; intros *; destruct s as [[l0 d0 p0 e0] [r0|]]; cbn;
    unfold when_mounted, conv_mounted, abstract; cbn; try done.
  all: try (destruct (f l0); done).
  all: intros; discriminate.
Qed.

(** On the spec's state, [abstract] is the identity. *)
Lemma abstract_conv (c : conv_state) : abstract c = c.
Proof. by destruct c. Qed.
