(* ===== verification/View.v ===== *)
(** * The render of [ChatInterface] (lines 92-221)

    The JSX is modelled by what it shows and by whether React can render
    it: the placeholder when the transcript is empty, one bubble per
    message (labelled "You" or "Tutor", its timestamp, and its text as a
    React child), the typing indicator, the error toast, the textarea's
    value and whether the Send button is disabled.  A React child that is a
    plain object cannot be rendered: React throws, and with no error
    boundary in src/ the tree unmounts.  Class names, the SVG and
    [formatTimestamp]'s text are presentation and are not modelled. *)

From S2P Require Import Prelude JsString JsValue Hooks Store.
From Stdlib Require Import String.

(** ** React children *)

(** The text nodes a value renders to as [{v}]: nothing for booleans,
    null and undefined, the decimal text of a number, a string as is, the
    children of an array in order, and an error for a plain object. *)
Fixpoint render_child (v : jsval) : js_error + list jsstring :=
  match v with
  | JUndefined | JNull | JBool _ => inr []
  | JNum n => inr [number_to_string n]
  | JStr s => inr [s]
  | JArr xs =>
      let fix go (xs : list jsval) : js_error + list jsstring :=
        match xs with
        | [] => inr []
        | x :: xs' =>
            match render_child x, go xs' with
            | inr a, inr b => inr (a ++ b)
            | inl e, _ => inl e
            | _, inl e => inl e
            end
        end in
      go xs
  | JObj _ => inl TypeError
  end.

(** ** The parts of the page *)

Record bubble : Type := mkBubble {
  b_is_user : bool;
  b_label : jsstring;
  b_timestamp : Z;
  b_text : list jsstring
}.

Record view : Type := mkView {
  v_placeholder : bool;
  v_bubbles : list bubble;
  v_typing : bool;
  v_toast : option (list jsstring);
  v_stray : list jsstring;
  v_draft : jsstring;
  v_send_disabled : bool
}.

(** Lines 122-142: one message. *)
Definition render_bubble (m : message) : js_error + bubble :=
  let isUser := bool_decide (sender m = SUser) in
  match render_child (text m) with
  | inl e => inl e
  | inr t => inr (mkBubble isUser (if isUser then lit "You" else lit "Tutor") (timestamp m) t)
  end.

(** Line 122: [messages.map(...)]. *)
Fixpoint render_bubbles (ms : list message) : js_error + list bubble :=
  match ms with
  | [] => inr []
  | m :: ms' =>
      match render_bubble m, render_bubbles ms' with
      | inr b, inr bs => inr (b :: bs)
      | inl e, _ => inl e
      | _, inl e => inl e
      end
  end.

(** Lines 176-188: [{error && (<div>...<span>{error}</span>...</div>)}].
    When [error] is truthy the toast shows it as a child; when it is falsy
    the expression's value, [error] itself, is rendered in place. *)
Definition render_toast (e : jsval) : js_error + (option (list jsstring) * list jsstring) :=
  match render_child e with
  | inl x => inl x
  | inr c => if truthy e then inr (Some c, []) else inr (None, c)
  end.

(** Line 208: [disabled] is [isBotThinking] or the trimmed draft is empty. *)
Definition send_disabled (st : chat_state) : bool :=
  isBotThinking st || bool_decide (trim (newMessage st) = []).

(** The whole render (lines 92-221). *)
Definition render (st : chat_state) : js_error + view :=
  match render_bubbles (messages st), render_toast (error st) with
  | inr bs, inr (toast, stray) =>
      inr (mkView (bool_decide (List.length (messages st) = 0)) bs (isBotThinking st)
                  toast stray (newMessage st) (send_disabled st))
  | inl e, _ => inl e
  | _, inl e => inl e
  end.

(** ** Renderable states *)

(** A value React can render as a child. *)
Fixpoint renderable (v : jsval) : bool :=
  match v with
  | JArr xs => forallb renderable xs
  | JObj _ => false
  | _ => true
  end.

Definition renderable_state (st : chat_state) : Prop :=
  Forall (fun m => renderable (text m) = true) (messages st) /\
  renderable (error st) = true.

(** ** Lemmas *)

Lemma render_child_ok v : renderable v = true -> exists t, render_child v = inr t.
Proof.
  induction v as [| | | | | xs IH | fs _] using jsval_nested_ind; simpl; intros Hr;
    try discriminate; eauto.
  induction IH as [|x xs Hx _ IHxs]; simpl in *; [eauto|].
  apply andb_true_iff in Hr as [Hx1 Hxs].
  destruct (Hx Hx1) as [a ->], (IHxs Hxs) as [b ->]. eauto.
Qed.

Lemma render_child_fail v : renderable v = false -> render_child v = inl TypeError.
Proof.
  induction v as [| | | | | xs IH | fs _] using jsval_nested_ind; simpl; intros Hr;
    try discriminate; [|done].
  induction IH as [|x xs Hx _ IHxs]; simpl in *; [discriminate|].
  destruct (renderable x) eqn:Ex; simpl in Hr.
  - destruct (render_child_ok x Ex) as [a ->]. by rewrite IHxs.
  - by rewrite Hx.
Qed.

Lemma render_bubbles_ok ms :
  Forall (fun m => renderable (text m) = true) ms ->
  exists bs, render_bubbles ms = inr bs /\
    map b_is_user bs = map (fun m => bool_decide (sender m = SUser)) ms.
Proof.
  induction 1 as [|m ms Hm _ [bs [Hbs Hmap]]]; [by exists []|].
  destruct (render_child_ok _ Hm) as [t Ht].
  eexists. simpl. unfold render_bubble. rewrite Ht, Hbs. split; [done|]. simpl. by rewrite Hmap.
Qed.

Lemma render_bubbles_fail ms :
  ~ Forall (fun m => renderable (text m) = true) ms -> render_bubbles ms = inl TypeError.
Proof.
  induction ms as [|m ms IH]; intros Hn; [by destruct Hn|]. simpl. unfold render_bubble.
  destruct (renderable (text m)) eqn:E.
  - destruct (render_child_ok _ E) as [t ->]. rewrite IH; [by destruct (render_bubble m)|].
    intros Hall. by apply Hn; constructor.
  - by rewrite render_child_fail.
Qed.

Lemma render_ok_of_renderable (st : chat_state) : renderable_state st -> exists v, render st = inr v.
Proof.
  unfold render, renderable_state, render_toast. intros [Hms He].
  destruct (render_bubbles_ok _ Hms) as [bs [-> _]].
  destruct (render_child_ok _ He) as [t ->]. destruct (truthy (error st)); eauto.
Qed.

(** C30: the render succeeds exactly on the states whose message texts and
    error are renderable React children (no plain object anywhere); on the
    others React throws and the tree unmounts. *)
Theorem render_total (st : chat_state) :
  renderable_state st <-> exists v, render st = inr v.
Proof.
  split; [apply render_ok_of_renderable|].
  unfold render, renderable_state, render_toast. intros [v Hv]. split.
  - destruct (decide (Forall (fun m => renderable (text m) = true) (messages st))) as [|Hn];
      [done|]. by rewrite render_bubbles_fail in Hv.
  - destruct (renderable (error st)) eqn:E; [done|].
    rewrite render_child_fail in Hv by done. by destruct (render_bubbles _).
Qed.
