(* ===== verification/Dispatch.v ===== *)
(** * The dispatch protocol: [sendMessageToGemini] and [handleSendMessage]

    [sendMessageToGemini] (ChatInterface.jsx, lines 22-75) runs in two
    parts around its suspension: [sendMessageToGemini_start] is the
    synchronous prefix (it sets [isBotThinking] and issues the POST whose
    body carries the message), and [sendMessageToGemini_resume] is the
    rest, run when the outcome of [fetch] and [response.json()] is known:
    the try block [gemini_try], the catch block [gemini_catch] and the
    finally block.  The outcome of the network exchange is a
    [fetch_outcome]: a rejected [fetch], or a response with its [ok] flag
    and its body parsed as JSON ([None] when [response.json()] rejects).

    Everything is written against the [ChatStore] interface, so the same
    definitions run on the component's hooks and on the spec's
    [conv_state]; [resume_sim] and [handleSendMessage_sim] transport every
    fact proved on [conv_state] to any lawful store. *)

From S2P Require Import Prelude JsString JsValue Hooks Store.
From Stdlib Require Import String.

(** ** The network exchange *)

Inductive fetch_outcome : Type :=
| FetchRejected
| FetchResponse (ok : bool) (body : option jsval).

(** [await response.json()] *)
Definition response_json (body : option jsval) : js_error + jsval :=
  match body with
  | Some v => inr v
  | None => inl SyntaxError
  end.

(** ** Messages and literals of the code *)

Definition bot_message (t : jsval) (now : Z) : message := mkMessage SBot t now.

Definition user_message (t : jsstring) (now : Z) : message := mkMessage SUser (JStr t) now.

Definition txt_unknown_error : jsval := JStr (lit "Unknown error").
Definition txt_failed : jsval := JStr (lit "Failed to send message.").
Definition txt_no_response : jsval := JStr (lit "No response from the tutor.").
Definition txt_error_prefix : jsstring := lit "Error: ".

(** ** The functional updaters, run by React when it renders *)

(** Lines 34-41: [prev => [...prev, {sender: "bot",
    text: `Error: ${errorData.error}`, timestamp: new Date()}]]. *)
Definition error_updater (errorData : jsval) (now : Z) : updater :=
  fun prev =>
    match get_field errorData FError with
    | inl e => inl e
    | inr v =>
        match to_string v with
        | inl e => inl e
        | inr sv => inr (prev ++ [bot_message (JStr (txt_error_prefix ++ sv)) now])
        end
    end.

(** Lines 48-51: [prev => [...prev, {sender: "bot", text: data.reply, ...}]]. *)
Definition reply_updater (data : jsval) (now : Z) : updater :=
  fun prev =>
    match get_field data FReply with
    | inl e => inl e
    | inr v => inr (prev ++ [bot_message v now])
    end.

Section Dispatch.
Context {S : Type} `{ChatStore S}.
Local Open Scope jsm_scope.

(** The try block after [await fetch(...)] (lines 31-61). *)
Definition gemini_try (r : fetch_outcome) (now : Z) : JsM S js_error unit :=
  match r with
  | FetchRejected => js_throw FetchFailed
  | FetchResponse ok body =>
      if negb ok then
        let* errorData := js_lift (response_json body) in
        let* e := js_lift (get_field errorData FError) in
        js_modify (set_error (js_or e txt_unknown_error)) ;;
        js_modify (update_transcript (error_updater errorData now))
      else
        let* data := js_lift (response_json body) in
        let* reply := js_lift (get_field data FReply) in
        if truthy reply
        then js_modify (update_transcript (reply_updater data now))
        else js_modify (store_append (bot_message txt_no_response now))
  end.

(** The catch block (lines 62-71). *)
Definition gemini_catch (now : Z) (_ : js_error) : JsM S js_error unit :=
  js_modify (set_error txt_failed) ;;
  js_modify (store_append (bot_message txt_failed now)).

(** Everything after the suspension, the finally block included
    (lines 24-74). *)
Definition sendMessageToGemini_resume (r : fetch_outcome) (now : Z) : JsM S js_error unit :=
  js_try_finally (js_try_catch (gemini_try r now) (gemini_catch now))
                 (js_modify (set_pending false)).

(** The synchronous prefix (lines 23-29): [setIsBotThinking(true)], then
    the request carrying [{ message }] is issued. *)
Definition sendMessageToGemini_start (message : jsstring) (s : S) : S * jsstring :=
  (set_pending true s, message).

(** [handleSendMessage] (lines 77-85): the state after the handler and
    the request it issued, if any. *)
Definition handleSendMessage (now : Z) (s : S) : S * option jsstring :=
  if bool_decide (trim (draft s) = []) then (s, None)
  else
    let s1 := store_append (user_message (trim (draft s)) now) s in
    let '(s2, req) := sendMessageToGemini_start (trim (draft s)) s1 in
    (set_draft [] s2, Some req).

End Dispatch.

(** ** The spec's contract for a settled dispatch *)

(** How the spec (sections 4.2 step 5 and 6) classifies an outcome:
    a transport failure (a rejected fetch, or a success response whose body
    is malformed), a gateway error with the body's error description if
    there is one, or a reply, empty when the field is absent or empty. *)
Inductive gateway_class : Type :=
| GTransport
| GGatewayError (desc : option jsstring)
| GReply (reply : option jsstring).

Definition nonempty (t : jsstring) : option jsstring :=
  if bool_decide (t = []) then None else Some t.

Definition spec_classify (r : fetch_outcome) : gateway_class :=
  match r with
  | FetchRejected => GTransport
  | FetchResponse false (Some (JObj fs)) =>
      match lookup_field (field_name FError) fs with
      | Some (JStr d) => GGatewayError (nonempty d)
      | _ => GGatewayError None
      end
  | FetchResponse false _ => GGatewayError None
  | FetchResponse true None => GTransport
  | FetchResponse true (Some (JObj fs)) =>
      match lookup_field (field_name FReply) fs with
      | Some (JStr t) => GReply (nonempty t)
      | _ => GReply None
      end
  | FetchResponse true (Some _) => GReply None
  end.

(** The spec's effect of each class on its state: one bot message, the
    error set only on failures, and [pending] false at the end.  The
    generic texts are the code's. *)
Definition spec_effect (g : gateway_class) (now : Z) (c : conv_state) : conv_state :=
  let settle (msg err : jsval) :=
    mkConv (c_transcript c ++ [bot_message msg now]) false err (c_failure c) in
  match g with
  | GTransport => settle txt_failed txt_failed
  | GGatewayError d =>
      let desc := default (lit "Unknown error") d in
      settle (JStr (txt_error_prefix ++ desc)) (JStr desc)
  | GReply (Some t) => settle (JStr t) (c_error c)
  | GReply None => settle txt_no_response (c_error c)
  end.

(** The outcomes on which the code meets the spec: a failed response must
    carry a non-empty string description; a successful one must have a
    string reply or none, and a body other than null. *)
Definition well_formed_outcome (r : fetch_outcome) : bool :=
  match r with
  | FetchRejected => true
  | FetchResponse false (Some (JObj fs)) =>
      match lookup_field (field_name FError) fs with
      | Some (JStr (_ :: _)) => true
      | _ => false
      end
  | FetchResponse false _ => false
  | FetchResponse true None => true
  | FetchResponse true (Some (JObj fs)) =>
      match lookup_field (field_name FReply) fs with
      | None | Some (JStr _) => true
      | _ => false
      end
  | FetchResponse true (Some (JNull | JUndefined)) => false
  | FetchResponse true (Some _) => true
  end.

(** ** Transport from the spec's state to any lawful store *)

Section Transport.
Context {S : Type} `{ChatStoreLaws S}.

Lemma abstract_append m (s : S) : abstract (store_append m s) = store_append m (abstract s).
Proof. apply abstract_update. Qed.

Lemma resume_sim r now :
  js_sim abstract (sendMessageToGemini_resume (S:=S) r now)
                  (sendMessageToGemini_resume (S:=conv_state) r now).
Proof.
  unfold sendMessageToGemini_resume, gemini_try, gemini_catch, store_append.
  repeat js_sim_step; auto using abstract_update, abstract_set_error,
    abstract_set_pending.
Qed.

Lemma resume_abstract r now (s : S) :
  abstract (snd (sendMessageToGemini_resume r now s)) =
    snd (sendMessageToGemini_resume r now (abstract s)) /\
  fst (sendMessageToGemini_resume r now s) =
    fst (sendMessageToGemini_resume r now (abstract s)).
Proof. destruct (resume_sim r now s). done. Qed.

Lemma failure_abstract (s : S) : failure s = c_failure (abstract s).
Proof. reflexivity. Qed.

Lemma abstract_mounted (s : S) :
  failure s = None ->
  abstract s = mkConv (transcript s) (pending s) (last_error s) None.
Proof. unfold abstract. by intros ->. Qed.

End Transport.

(** Unfolds a resumption on the spec's state down to the field lookups. *)
Ltac resume_unfold :=
  unfold sendMessageToGemini_resume, js_try_finally, js_try_catch, gemini_try,
    gemini_catch, js_bind, js_lift, js_modify, js_throw, store_append, response_json;
  cbn -[lookup_field truthy field_name to_string lit].

(** Computes a resumption, rewriting with the hypotheses on lookups. *)
Ltac resume_compute :=
  resume_unfold;
  repeat match goal with
  | H : lookup_field _ _ = _ |- _ => progress rewrite H; cbn -[lookup_field truthy field_name to_string lit]
  | H : truthy _ = _ |- _ => progress rewrite H; cbn -[lookup_field truthy field_name to_string lit]
  | H : to_string _ = _ |- _ => progress rewrite H; cbn -[lookup_field truthy field_name to_string lit]
  | |- context [to_string (JObj _)] => rewrite to_string_obj; cbn -[lookup_field truthy field_name to_string lit]
  | |- context [js_or (JObj _) _] => rewrite js_or_obj; cbn -[lookup_field truthy field_name to_string lit]
  end.

Ltac cbn_fields := cbn -[lookup_field field_name].

(** Moves a goal about a lawful store to the spec's state. *)
Ltac to_conv :=
  rewrite (proj1 (resume_abstract _ _ _)), abstract_mounted by done.

(** ** What a settled dispatch does *)

Section Settle.
Context {S : Type} `{ChatStoreLaws S}.

Lemma resume_conv_settles r now (c : conv_state) :
  fst (sendMessageToGemini_resume r now c) = inr tt /\
  (c_failure (snd (sendMessageToGemini_resume r now c)) = None ->
   c_pending (snd (sendMessageToGemini_resume r now c)) = false).
Proof.
  destruct c as [t p e [f|]], r as [|[] [body|]]; resume_unfold;
    repeat (case_match; simplify_eq; cbn -[lookup_field truthy field_name to_string lit]);
    done.
Qed.

(** C7: the resumption of [sendMessageToGemini] never rejects (every
    exception of the try block is caught), and whenever the component is
    still mounted afterwards, [isBotThinking] is false: the finally block
    runs on every path. *)
Theorem resume_settles (s : S) r now :
  fst (sendMessageToGemini_resume r now s) = inr tt /\
  (failure (snd (sendMessageToGemini_resume r now s)) = None ->
   pending (snd (sendMessageToGemini_resume r now s)) = false).
Proof.
  destruct (resume_abstract r now s) as [Ha Hf].
  destruct (resume_conv_settles r now (abstract s)) as [Hok Hp].
  split; [by rewrite Hf|]. intros Hfail.
  change (pending ?x) with (c_pending (abstract x)).
  rewrite Ha. apply Hp. rewrite <- Ha. exact Hfail.
Qed.

Lemma resume_conv_refines r now c :
  c_failure c = None -> well_formed_outcome r = true ->
  snd (sendMessageToGemini_resume r now c) = spec_effect (spec_classify r) now c.
Proof.
  destruct c as [t p e [f|]]; [discriminate|]; intros _.
  destruct r as [|[] [body|]]; resume_unfold; try done.
  - destruct body; try done; cbn_fields; try done.
    destruct (lookup_field _ fields) as [v|] eqn:E; cbn_fields; [|done].
    destruct v; cbn_fields; try done. intros _. unfold nonempty.
    case_bool_decide; cbn_fields; [done|]. by rewrite E.
  - destruct body; try done. cbn_fields.
    destruct (lookup_field _ fields) as [v|] eqn:E; cbn_fields; try done.
    destruct v as [| | | |[|c0 d]| |]; done.
Qed.

(** C6: refinement of the spec's contract.  On every outcome where the
    gateway behaves as section 6 describes (a failure carries a
    non-empty string description, a success has a string reply or none),
    the settled dispatch does exactly what section 4.2 prescribes for the
    outcome's class: one bot message (the reply, the fallback, the
    embedded description or the generic failure), [lastError] set only
    on failures, and [pending] false. *)
Theorem resume_refines_spec (s : S) r now :
  failure s = None -> well_formed_outcome r = true ->
  abstract (snd (sendMessageToGemini_resume r now s)) =
    spec_effect (spec_classify r) now (abstract s).
Proof.
  intros Hf Hw. rewrite (proj1 (resume_abstract _ _ _)).
  apply resume_conv_refines; [by unfold abstract | done].
Qed.

End Settle.

Definition bonjour_outcome : fetch_outcome :=
  FetchResponse true (Some (JObj [(lit "reply", JStr (lit "Bonjour"))])).

Lemma resume_refines_spec_witness :
  failure initial_state = None /\ well_formed_outcome bonjour_outcome = true /\
  abstract (snd (sendMessageToGemini_resume bonjour_outcome 7%Z initial_state)) =
    spec_effect (spec_classify bonjour_outcome) 7%Z (abstract initial_state).
Proof. split_and!; [reflexivity | reflexivity | apply resume_refines_spec; reflexivity]. Defined.

(** ** The branches the spec does not describe as the code behaves *)

Section Branches.
Context {S : Type} `{ChatStoreLaws S}.

(** C24: a success response whose [reply] field is truthy appends a bot
    message holding that very value (a string, or a number or object as
    the gateway sent it) and leaves [lastError] alone; [pending] ends
    false. *)
Theorem resume_reply (s : S) fs v now :
  failure s = None ->
  lookup_field (field_name FReply) fs = Some v -> truthy v = true ->
  abstract (snd (sendMessageToGemini_resume (FetchResponse true (Some (JObj fs))) now s)) =
    mkConv (transcript s ++ [bot_message v now]) false (last_error s) None.
Proof. intros Hf Hl Ht. to_conv. resume_compute. done. Qed.

(** C25: a failure response whose body has no [error] field sets
    [lastError] to "Unknown error", but the bot message reads
    "Error: undefined": the template literal of line 38 reads the
    missing field again instead of the description of line 33. *)
Theorem resume_error_without_description (s : S) fs now :
  failure s = None ->
  lookup_field (field_name FError) fs = None ->
  abstract (snd (sendMessageToGemini_resume (FetchResponse false (Some (JObj fs))) now s)) =
    mkConv (transcript s ++ [bot_message (JStr (txt_error_prefix ++ lit "undefined")) now])
      false txt_unknown_error None.
Proof. intros Hf Hl. to_conv. resume_compute. done. Qed.

(** C26: a response (failed or not) whose body is not JSON makes
    [response.json()] reject; the catch block treats it as a transport
    failure, where the spec asks a failed response with an unparseable
    body to report "unknown error". *)
Theorem resume_unparseable_body (s : S) ok now :
  failure s = None ->
  abstract (snd (sendMessageToGemini_resume (FetchResponse ok None) now s)) =
    mkConv (transcript s ++ [bot_message txt_failed now]) false txt_failed None.
Proof. intros Hf. to_conv. destruct ok; resume_compute; done. Qed.

(** C27: a body that is JSON [null] makes the property access throw a
    TypeError, which is also reported as a transport failure. *)
Theorem resume_null_body (s : S) ok now :
  failure s = None ->
  abstract (snd (sendMessageToGemini_resume (FetchResponse ok (Some JNull)) now s)) =
    mkConv (transcript s ++ [bot_message txt_failed now]) false txt_failed None.
Proof. intros Hf. to_conv. destruct ok; resume_compute; done. Qed.

(** C28: a failure response whose [error] field is an object (the shape
    of a structured API error) stores the object itself as [lastError]
    and appends "Error: [object Object]". *)
Theorem resume_error_object (s : S) fs gs now :
  failure s = None ->
  lookup_field (field_name FError) fs = Some (JObj gs) ->
  lookup_field (lit "toString") gs = None ->
  abstract (snd (sendMessageToGemini_resume (FetchResponse false (Some (JObj fs))) now s)) =
    mkConv (transcript s ++ [bot_message (JStr (txt_error_prefix ++ lit "[object Object]")) now])
      false (JObj gs) None.
Proof. intros Hf Hl Ht. to_conv. resume_compute. done. Qed.

(** C29: when that object has its own [toString] field, the template
    literal throws inside the updater, which React runs while rendering,
    outside the try block: the tree unmounts with [isBotThinking] still
    true, and the error object stays in [lastError]. *)
Theorem resume_error_updater_throws (s : S) fs gs w now :
  failure s = None ->
  lookup_field (field_name FError) fs = Some (JObj gs) ->
  lookup_field (lit "toString") gs = Some w ->
  abstract (snd (sendMessageToGemini_resume (FetchResponse false (Some (JObj fs))) now s)) =
    mkConv (transcript s) (pending s) (JObj gs) (Some TypeError).
Proof. intros Hf Hl Ht. to_conv. resume_compute. done. Qed.

End Branches.

(** ** [handleSendMessage] *)

Section Send.
Context {S : Type} `{ChatStoreLaws S}.

(** C23: a draft made only of white space and line terminators is
    ignored: the state is unchanged and no request is issued. *)
Theorem handleSendMessage_blank now (s : S) :
  Forall ws (draft s) -> handleSendMessage now s = (s, None).
Proof.
  intros Hw. unfold handleSendMessage.
  rewrite bool_decide_eq_true_2; [done | by apply trim_all_ws].
Qed.

Lemma handleSendMessage_nonblank now (s : S) :
  trim (draft s) <> [] ->
  handleSendMessage now s =
    (set_draft [] (set_pending true (store_append (user_message (trim (draft s)) now) s)),
     Some (trim (draft s))).
Proof.
  intros Ht. unfold handleSendMessage, sendMessageToGemini_start.
  by rewrite bool_decide_eq_false_2.
Qed.

(** C8: a draft whose trim is not empty appends exactly one user
    message carrying the trimmed text, sets [pending], clears the draft
    and issues one request carrying the same trimmed text; [lastError] is
    untouched. *)
Theorem handleSendMessage_sends now (s : S) :
  failure s = None -> trim (draft s) <> [] ->
  snd (handleSendMessage now s) = Some (trim (draft s)) /\
  abstract (fst (handleSendMessage now s)) =
    mkConv (transcript s ++ [user_message (trim (draft s)) now]) true (last_error s) None /\
  draft (fst (handleSendMessage now s)) = [].
Proof.
  intros Hf Ht. rewrite handleSendMessage_nonblank by done. unfold store_append. cbn [fst snd].
  rewrite abstract_set_draft, abstract_set_pending, abstract_update, abstract_mounted by done.
  split_and!; [done | done |]. apply draft_set_draft.
  rewrite failure_abstract, abstract_set_pending, abstract_update, abstract_mounted by done.
  done.
Qed.

End Send.

(** ** Every settlement appends exactly one bot message *)

Section OneBot.
Context {S : Type} `{ChatStoreLaws S}.

Lemma resume_conv_one_bot r now c :
  c_failure c = None -> c_failure (snd (sendMessageToGemini_resume r now c)) = None ->
  exists m, c_transcript (snd (sendMessageToGemini_resume r now c)) = c_transcript c ++ [m] /\
            sender m = SBot /\ timestamp m = now.
Proof.
  destruct c as [t p e [f|]]; [discriminate|]; intros _.
  destruct r as [|[] [body|]]; resume_unfold; unfold reply_updater, error_updater;
    repeat (case_match; simplify_eq; cbn -[lookup_field truthy field_name to_string lit]);
    intros; try discriminate; eexists; split_and!; reflexivity.
Qed.

Lemma resume_conv_unmounted r now c e :
  c_failure c = Some e -> snd (sendMessageToGemini_resume r now c) = c.
Proof.
  destruct c as [t p e0 [f|]]; [|discriminate]; intros _.
  destruct r as [|[] [body|]]; resume_unfold; unfold reply_updater, error_updater;
    repeat (case_match; simplify_eq; cbn -[lookup_field truthy field_name to_string lit]); done.
Qed.

(** C22: a settlement that leaves the component mounted appends exactly one
    message, from the bot, stamped with the settlement's time, whatever the
    outcome; the messages before it are kept. *)
Theorem resume_one_bot (s : S) r now :
  failure s = None -> failure (snd (sendMessageToGemini_resume r now s)) = None ->
  exists m, transcript (snd (sendMessageToGemini_resume r now s)) = transcript s ++ [m] /\
            sender m = SBot /\ timestamp m = now.
Proof.
  intros Hf Hf'. destruct (resume_abstract r now s) as [Ha _].
  rewrite failure_abstract, Ha in Hf'.
  change (transcript ?x) with (c_transcript (abstract x)). rewrite Ha.
  apply resume_conv_one_bot; [by rewrite <- failure_abstract | done].
Qed.

Lemma resume_conv_transcript r now c :
  c_transcript (snd (sendMessageToGemini_resume r now c)) = c_transcript c \/
  exists m, c_transcript (snd (sendMessageToGemini_resume r now c)) = c_transcript c ++ [m] /\
            sender m = SBot /\ timestamp m = now.
Proof.
  destruct c as [t p e [f|]]; [left; by rewrite (resume_conv_unmounted _ _ _ f)|].
  destruct r as [|[] [body|]]; resume_unfold; unfold reply_updater, error_updater;
    repeat (case_match; simplify_eq; cbn -[lookup_field truthy field_name to_string lit]);
    solve [left; done | right; eexists; split_and!; reflexivity].
Qed.

(** A settlement keeps the transcript or appends one bot message stamped
    with its time, whether or not the component stays mounted. *)
Lemma resume_transcript (s : S) r now :
  transcript (snd (sendMessageToGemini_resume r now s)) = transcript s \/
  exists m, transcript (snd (sendMessageToGemini_resume r now s)) = transcript s ++ [m] /\
            sender m = SBot /\ timestamp m = now.
Proof.
  destruct (resume_abstract r now s) as [Ha _].
  change (transcript ?x) with (c_transcript (abstract x)). rewrite Ha.
  apply resume_conv_transcript.
Qed.

(** A settlement that leaves the component mounted cleared the pending
    flag and appended one bot message stamped [now]. *)
Lemma resume_effect (s : S) r now :
  failure s = None -> failure (snd (sendMessageToGemini_resume r now s)) = None ->
  pending (snd (sendMessageToGemini_resume r now s)) = false /\
  exists m, transcript (snd (sendMessageToGemini_resume r now s)) = transcript s ++ [m] /\
            sender m = SBot /\ timestamp m = now.
Proof.
  intros Hf Hf'. destruct (resume_abstract r now s) as [Ha _].
  rewrite failure_abstract, Ha in Hf'.
  change (pending ?x) with (c_pending (abstract x)).
  change (transcript ?x) with (c_transcript (abstract x)). rewrite Ha.
  split; [by apply (resume_conv_settles r now (abstract s)) |].
  apply resume_conv_one_bot; [by rewrite <- failure_abstract | done].
Qed.

(** Once unmounted, a settlement changes nothing the spec's state shows. *)
Lemma resume_unmounted (s : S) r now e :
  failure s = Some e -> abstract (snd (sendMessageToGemini_resume r now s)) = abstract s.
Proof.
  intros Hf. destruct (resume_abstract r now s) as [Ha _]. rewrite Ha.
  apply (resume_conv_unmounted _ _ _ e). by rewrite <- failure_abstract.
Qed.

End OneBot.

(** ** Witnesses *)

Definition error_obj_outcome (gs : list (jsstring * jsval)) : fetch_outcome :=
  FetchResponse false (Some (JObj [(lit "error", JObj gs)])).

Lemma resume_reply_witness :
  failure initial_state = None /\
  lookup_field (field_name FReply) [(lit "reply", JNum 42)] = Some (JNum 42) /\
  truthy (JNum 42) = true /\
  abstract (snd (sendMessageToGemini_resume
                   (FetchResponse true (Some (JObj [(lit "reply", JNum 42)]))) 3%Z initial_state)) =
    mkConv (transcript initial_state ++ [bot_message (JNum 42) 3%Z]) false
      (last_error initial_state) None.
Proof. split_and!; [reflexivity.. | apply resume_reply; reflexivity]. Defined.

Lemma resume_error_without_description_witness :
  failure initial_state = None /\
  lookup_field (field_name FError) [(lit "detail", JStr (lit "x"))] = None /\
  abstract (snd (sendMessageToGemini_resume
                   (FetchResponse false (Some (JObj [(lit "detail", JStr (lit "x"))]))) 3%Z initial_state)) =
    mkConv (transcript initial_state ++
            [bot_message (JStr (txt_error_prefix ++ lit "undefined")) 3%Z])
      false txt_unknown_error None.
Proof. split_and!; [reflexivity.. | apply resume_error_without_description; reflexivity]. Defined.

Lemma resume_unparseable_body_witness :
  failure initial_state = None /\
  abstract (snd (sendMessageToGemini_resume (FetchResponse false None) 3%Z initial_state)) =
    mkConv (transcript initial_state ++ [bot_message txt_failed 3%Z]) false txt_failed None.
Proof. split; [reflexivity | apply resume_unparseable_body; reflexivity]. Defined.

Lemma resume_null_body_witness :
  failure initial_state = None /\
  abstract (snd (sendMessageToGemini_resume (FetchResponse true (Some JNull)) 3%Z initial_state)) =
    mkConv (transcript initial_state ++ [bot_message txt_failed 3%Z]) false txt_failed None.
Proof. split; [reflexivity | apply resume_null_body; reflexivity]. Defined.

Lemma resume_error_object_witness :
  let gs := [(lit "code", JNum 429); (lit "message", JStr (lit "rate limited"))] in
  failure initial_state = None /\
  lookup_field (field_name FError) [(lit "error", JObj gs)] = Some (JObj gs) /\
  lookup_field (lit "toString") gs = None /\
  abstract (snd (sendMessageToGemini_resume (error_obj_outcome gs) 3%Z initial_state)) =
    mkConv (transcript initial_state ++
            [bot_message (JStr (txt_error_prefix ++ lit "[object Object]")) 3%Z])
      false (JObj gs) None.
Proof. intros gs. split_and!; [reflexivity.. | apply resume_error_object; reflexivity]. Defined.

Lemma resume_error_updater_throws_witness :
  let gs := [(lit "toString", JStr (lit "x"))] in
  failure initial_state = None /\
  lookup_field (field_name FError) [(lit "error", JObj gs)] = Some (JObj gs) /\
  lookup_field (lit "toString") gs = Some (JStr (lit "x")) /\
  abstract (snd (sendMessageToGemini_resume (error_obj_outcome gs) 3%Z initial_state)) =
    mkConv (transcript initial_state) (pending initial_state) (JObj gs) (Some TypeError).
Proof. intros gs. split_and!; [reflexivity.. | eapply resume_error_updater_throws; reflexivity]. Defined.

Lemma handleSendMessage_blank_witness :
  Forall ws (draft (handleChange [32; 9; 10]%Z initial_state)) /\
  handleSendMessage 3%Z (handleChange [32; 9; 10]%Z initial_state) =
    (handleChange [32; 9; 10]%Z initial_state, None).
Proof.
  split; [vm_compute; repeat constructor | apply handleSendMessage_blank].
  vm_compute; repeat constructor.
Defined.

Lemma handleSendMessage_sends_witness :
  let s := handleChange (lit " Namaskar ") initial_state in
  failure s = None /\ trim (draft s) <> [] /\
  snd (handleSendMessage 3%Z s) = Some (trim (draft s)) /\
  abstract (fst (handleSendMessage 3%Z s)) =
    mkConv (transcript s ++ [user_message (trim (draft s)) 3%Z]) true (last_error s) None /\
  draft (fst (handleSendMessage 3%Z s)) = [].
Proof.
  intros s. assert (Hf : failure s = None) by reflexivity.
  assert (Ht : trim (draft s) <> []) by (vm_compute; discriminate).
  destruct (handleSendMessage_sends 3%Z s Hf Ht) as (H1 & H2 & H3).
  split_and!; assumption.
Defined.

Lemma resume_settles_witness :
  let s' := snd (sendMessageToGemini_resume bonjour_outcome 7%Z
                   (fst (handleSendMessage 5%Z (handleChange (lit "Hello") initial_state)))) in
  failure s' = None /\
  fst (sendMessageToGemini_resume bonjour_outcome 7%Z
         (fst (handleSendMessage 5%Z (handleChange (lit "Hello") initial_state)))) = inr tt /\
  pending s' = false.
Proof.
  intros s'.
  destruct (resume_settles (fst (handleSendMessage 5%Z (handleChange (lit "Hello") initial_state)))
              bonjour_outcome 7%Z) as [H1 H2].
  assert (Hf : failure s' = None) by reflexivity.
  split_and!; [exact Hf | exact H1 | exact (H2 Hf)].
Defined.

Lemma resume_one_bot_witness :
  let s := fst (handleSendMessage 2%Z (handleChange (lit "Hello") initial_state)) in
  failure s = None /\
  failure (snd (sendMessageToGemini_resume FetchRejected 4%Z s)) = None /\
  exists m, transcript (snd (sendMessageToGemini_resume FetchRejected 4%Z s)) = transcript s ++ [m] /\
            sender m = SBot /\ timestamp m = 4%Z.
Proof.
  intros s. assert (H1 : failure s = None) by reflexivity.
  assert (H2 : failure (snd (sendMessageToGemini_resume FetchRejected 4%Z s)) = None)
    by reflexivity.
  split_and!; [exact H1 | exact H2 | exact (resume_one_bot s FetchRejected 4%Z H1 H2)].
Defined.
