(* ===== verification/Session.v ===== *)
(** * The UI session: events, interleavings and their invariants

    The component reacts to user events and to the settlement of the
    requests it issued.  A [session] is the component's state together
    with the requests in flight (in the order they were issued), a request
    counter and the clock that [new Date()] reads.  [session_step] is one
    event: the handler the JSX attaches to it, followed by React's
    re-render ([commit]), which unmounts the tree if it throws.  An event
    whose element is not on the page (anything once the tree is unmounted,
    a click on the disabled Send button, the toast's button when no toast
    is shown) has no step.  A request settles at any time, in any order,
    with any outcome the gateway chooses; a settlement runs even after an
    unmount, as a promise does. *)

From S2P Require Import Prelude JsString JsValue Hooks Store View Dispatch.
From Stdlib Require Import String Sorted.

Record request : Type := mkRequest {
  req_id : nat;
  req_message : jsstring
}.

Record session : Type := mkSession {
  ui : chat_state;
  inflight : list request;
  next_id : nat;
  clock : Z
}.

Definition initial_session : session := mkSession initial_state [] 0 0.

Inductive event : Type :=
| EvChange (v : jsstring)                  (* textarea onChange *)
| EvKeyDown (key : jsstring) (shift : bool) (* textarea onKeyDown *)
| EvClickSend                              (* Send button onClick *)
| EvClickClear                             (* Clear Chat button onClick *)
| EvDismiss                                (* toast close button onClick *)
| EvSettle (id : nat) (r : fetch_outcome)  (* request [id] settles *)
| EvTick (dt : Z).                         (* the wall clock advances *)

Definition mounted (st : chat_state) : bool :=
  match render_error st with
  | None => true
  | Some _ => false
  end.

(** React's re-render after a handler: an exception unmounts the tree. *)
Definition commit (st : chat_state) : chat_state :=
  match render_error st with
  | Some _ => st
  | None =>
      match render st with
      | inr _ => st
      | inl e => mkChatState st (Some e)
      end
  end.

Definition with_ui (ss : session) (st : chat_state) : session :=
  mkSession st (inflight ss) (next_id ss) (clock ss).

(** [handleSendMessage] run from an event: the request it issues, if any,
    joins the requests in flight. *)
Definition send (ss : session) : session :=
  let '(st', req) := handleSendMessage (clock ss) (ui ss) in
  match req with
  | None => with_ui ss (commit st')
  | Some m =>
      mkSession (commit st') (inflight ss ++ [mkRequest (next_id ss) m])
                (S (next_id ss)) (clock ss)
  end.

(** Lines 198-203: [e.key === "Enter" && !e.shiftKey]. *)
Definition is_enter (key : jsstring) (shift : bool) : bool :=
  bool_decide (key = lit "Enter") && negb shift.

Definition find_request (id : nat) (rs : list request) : option request :=
  List.find (fun r => Nat.eqb (req_id r) id) rs.

Definition remove_request (id : nat) (rs : list request) : list request :=
  List.filter (fun r => negb (Nat.eqb (req_id r) id)) rs.

Definition session_step (e : event) (ss : session) : option session :=
  let st := ui ss in
  match e with
  | EvChange v =>
      if mounted st then Some (with_ui ss (commit (handleChange v st))) else None
  | EvKeyDown key shift =>
      if mounted st then
        if is_enter key shift then Some (send ss) else Some ss
      else None
  | EvClickSend =>
      if mounted st && negb (send_disabled st) then Some (send ss) else None
  | EvClickClear =>
      if mounted st then Some (with_ui ss (commit (handleClearChat st))) else None
  | EvDismiss =>
      if mounted st && truthy (error st) then Some (with_ui ss (commit (dismissError st)))
      else None
  | EvSettle id r =>
      match find_request id (inflight ss) with
      | Some _ =>
          Some (mkSession (commit (snd (sendMessageToGemini_resume r (clock ss) st)))
                          (remove_request id (inflight ss)) (next_id ss) (clock ss))
      | None => None
      end
  | EvTick dt =>
      if (0 <=? dt)%Z then Some (mkSession st (inflight ss) (next_id ss) (clock ss + dt))
      else None
  end.

Fixpoint run (es : list event) (ss : session) : option session :=
  match es with
  | [] => Some ss
  | e :: es' =>
      match session_step e ss with
      | Some ss' => run es' ss'
      | None => None
      end
  end.

(** The sessions reachable from the initial one by steps whose event the
    predicate [ok] admits in the state it happens in. *)
Inductive reachable (ok : event -> session -> bool) : session -> Prop :=
| reach_init : reachable ok initial_session
| reach_step e ss ss' :
    reachable ok ss -> ok e ss = true -> session_step e ss = Some ss' -> reachable ok ss'.

(** Every event, as the code admits them. *)
Definition any_event (e : event) (ss : session) : bool := true.

(** The Enter key gated as the Send button is: no send while
    [isBotThinking]. *)
Definition enter_gated (e : event) (ss : session) : bool :=
  match e with
  | EvKeyDown key shift => negb (is_enter key shift && isBotThinking (ui ss))
  | _ => true
  end.

(** No Clear Chat click. *)
Definition no_clear (e : event) (ss : session) : bool :=
  match e with
  | EvClickClear => false
  | _ => true
  end.

(** The gateway keeps to the contract of section 6 of the spec. *)
Definition gateway_well_behaved (e : event) (ss : session) : bool :=
  match e with
  | EvSettle _ r => well_formed_outcome r
  | _ => true
  end.

(** Counting the messages of each sender. *)
Definition is_user (m : message) : bool := bool_decide (sender m = SUser).
Definition is_bot (m : message) : bool := bool_decide (sender m = SBot).

(** ** What each part of a step does to the fields *)

Lemma commit_fields (st : chat_state) :
  messages (commit st) = messages st /\ isBotThinking (commit st) = isBotThinking st /\
  error (commit st) = error st /\ newMessage (commit st) = newMessage st.
Proof. unfold commit. by repeat case_match. Qed.

Lemma commit_mounted (st : chat_state) : mounted (commit st) = true -> mounted st = true.
Proof. unfold commit, mounted. repeat case_match; simplify_eq; done. Qed.

Lemma abstract_chat_state (st : chat_state) :
  abstract st = mkConv (messages st) (isBotThinking st) (error st) (render_error st).
Proof. reflexivity. Qed.

Lemma mounted_failure (st : chat_state) : mounted st = true <-> failure st = None.
Proof. unfold mounted. simpl. by destruct (render_error st). Qed.

(** A settlement that leaves the tree mounted found it mounted, cleared
    [isBotThinking] and appended one bot message stamped [now]. *)
Lemma settle_fields (st : chat_state) r now :
  mounted (snd (sendMessageToGemini_resume r now st)) = true ->
  mounted st = true /\ isBotThinking (snd (sendMessageToGemini_resume r now st)) = false /\
  exists m, messages (snd (sendMessageToGemini_resume r now st)) = messages st ++ [m] /\
            sender m = SBot /\ timestamp m = now.
Proof.
  rewrite !mounted_failure. intros Hf'.
  assert (Hf : failure st = None).
  { destruct (failure st) as [e|] eqn:E; [|done].
    pose proof (resume_unmounted st r now e E) as Hu.
    rewrite !abstract_chat_state in Hu. simplify_eq. simpl in *. congruence. }
  split; [done | exact (resume_effect st r now Hf Hf')].
Qed.

(** [send] on a mounted component: a blank draft changes nothing; any
    other draft appends the user's message, sets [isBotThinking], clears
    the draft and adds one request to those in flight. *)
Lemma send_cases ss :
  mounted (ui ss) = true ->
  (trim (newMessage (ui ss)) = [] /\ send ss = with_ui ss (commit (ui ss))) \/
  (trim (newMessage (ui ss)) <> [] /\
   exists st', send ss = mkSession (commit st')
                 (inflight ss ++ [mkRequest (next_id ss) (trim (newMessage (ui ss)))])
                 (S (next_id ss)) (clock ss) /\
   messages st' = messages (ui ss) ++ [user_message (trim (newMessage (ui ss))) (clock ss)] /\
   isBotThinking st' = true /\ error st' = error (ui ss) /\ newMessage st' = [] /\
   mounted st' = true).
Proof.
  intros Hm. unfold send.
  destruct (decide (trim (newMessage (ui ss)) = [])) as [Hb|Hb].
  - left. split; [done|]. unfold handleSendMessage. simpl. by rewrite bool_decide_eq_true_2.
  - right. split; [done|]. unfold send. rewrite handleSendMessage_nonblank by done.
    eexists. split; [reflexivity|]. unfold mounted in Hm.
    destruct (ui ss) as [[ms d p e] [f|]]; [discriminate|]. split_and!; reflexivity.
Qed.

Lemma find_request_some id rs r : find_request id rs = Some r -> rs <> [].
Proof. destruct rs; [discriminate | done]. Qed.

Lemma remove_request_single id rs r :
  List.length rs <= 1 -> find_request id rs = Some r -> remove_request id rs = [].
Proof.
  destruct rs as [|r0 [|r1 rs]]; simpl; intros Hl Hf; [discriminate| |lia].
  destruct (Nat.eqb (req_id r0) id); done.
Qed.

Lemma remove_request_length id rs : List.length (remove_request id rs) <= List.length rs.
Proof. unfold remove_request. induction rs as [|r rs IH]; simpl; [lia|]. case_match; simpl; lia. Qed.

Lemma handlers_keep_thinking v (st : chat_state) :
  isBotThinking (handleChange v st) = isBotThinking st /\
  isBotThinking (handleClearChat st) = isBotThinking st /\
  isBotThinking (dismissError st) = isBotThinking st.
Proof.
  destruct st as [[ms d p e] [f|]];
    unfold handleChange, handleClearChat, dismissError, setNewMessage, setMessages, setError,
      when_mounted; done.
Qed.

Lemma handlers_keep_messages v (st : chat_state) :
  messages (handleChange v st) = messages st /\ messages (dismissError st) = messages st.
Proof.
  destruct st as [[ms d p e] [f|]];
    unfold handleChange, dismissError, setNewMessage, setError, when_mounted; done.
Qed.

(** ** Single flight *)

(** The invariant of sections 3 and 5 of the spec: while the component is
    mounted, [isBotThinking] is set exactly when a request is in flight, and
    at most one is. *)
Definition single_flight (ss : session) : Prop :=
  mounted (ui ss) = true ->
  (isBotThinking (ui ss) = true <-> inflight ss <> []) /\ List.length (inflight ss) <= 1.

Lemma single_flight_keep ss ss' :
  inflight ss' = inflight ss ->
  (mounted (ui ss') = true ->
   mounted (ui ss) = true /\ isBotThinking (ui ss') = isBotThinking (ui ss)) ->
  single_flight ss -> single_flight ss'.
Proof. intros Hi Hm Hs Hm'. destruct (Hm Hm') as [Hm0 ->]. rewrite Hi. by apply Hs. Qed.

Lemma single_flight_commit ss (st : chat_state) :
  isBotThinking st = isBotThinking (ui ss) -> (mounted st = true -> mounted (ui ss) = true) ->
  single_flight ss -> single_flight (with_ui ss (commit st)).
Proof.
  intros Hb Hm. apply single_flight_keep; [done|]. intros Hm'. simpl in *.
  destruct (commit_fields st) as (_ & -> & _). split; [|done]. by apply Hm, commit_mounted.
Qed.

Lemma single_flight_send ss :
  mounted (ui ss) = true -> isBotThinking (ui ss) = false ->
  single_flight ss -> single_flight (send ss).
Proof.
  intros Hm Hb Hs. destruct (Hs Hm) as [Hiff _].
  assert (Hnil : inflight ss = []).
  { destruct (inflight ss) as [|r rs]; [done|]. rewrite Hb in Hiff.
    assert (false = true) by (apply Hiff; done). discriminate. }
  destruct (send_cases ss Hm) as [[_ ->] | [_ (st' & -> & _ & Hbt & _)]].
  - by apply single_flight_commit.
  - intros _. simpl. rewrite Hnil. destruct (commit_fields st') as (_ & -> & _).
    rewrite Hbt. simpl. split; [done | lia].
Qed.

Lemma single_flight_step e ss ss' :
  single_flight ss -> enter_gated e ss = true -> session_step e ss = Some ss' ->
  single_flight ss'.
Proof.
  intros Hs Hok Hstep.
  destruct e as [v|key shift| | | |id r|dt]; simpl in Hstep, Hok.
  - destruct (mounted (ui ss)) eqn:Hm; simplify_eq.
    apply single_flight_commit; [|done|done].
    by destruct (handlers_keep_thinking v (ui ss)) as (? & ? & ?).
  - destruct (mounted (ui ss)) eqn:Hm; [|done].
    destruct (is_enter key shift); simplify_eq; [|done].
    apply single_flight_send; [done | | done]. by destruct (isBotThinking (ui ss)).
  - destruct (mounted (ui ss)) eqn:Hm; [|done]. unfold send_disabled in Hstep.
    destruct (isBotThinking (ui ss)) eqn:Hb; simpl in Hstep; [done|].
    destruct (bool_decide _); simpl in Hstep; simplify_eq. by apply single_flight_send.
  - destruct (mounted (ui ss)) eqn:Hm; simplify_eq.
    apply single_flight_commit; [|done|done].
    by destruct (handlers_keep_thinking [] (ui ss)) as (? & ? & ?).
  - destruct (mounted (ui ss)) eqn:Hm; [|done].
    destruct (truthy (error (ui ss))); simpl in Hstep; simplify_eq.
    apply single_flight_commit; [|done|done].
    by destruct (handlers_keep_thinking [] (ui ss)) as (? & ? & ?).
  - destruct (find_request id (inflight ss)) as [rq|] eqn:Hf; simplify_eq.
    intros Hm'. simpl in *. apply commit_mounted in Hm'.
    destruct (settle_fields _ _ _ Hm') as (Hm0 & Hb & _).
    destruct (Hs Hm0) as [_ Hlen].
    destruct (commit_fields (snd (sendMessageToGemini_resume r (clock ss) (ui ss)))) as (_ & -> & _).
    rewrite Hb, (remove_request_single _ _ _ Hlen Hf). simpl. split; [done | lia].
  - destruct (0 <=? dt)%Z; simplify_eq. by apply (single_flight_keep ss).
Qed.

(** C1: when the Enter key is gated as the Send button is (no send while
    [isBotThinking]), every reachable session keeps single flight: while
    mounted, [isBotThinking] holds exactly when a request is in flight,
    and at most one request is ever in flight. *)
Theorem gated_single_flight ss :
  reachable enter_gated ss -> single_flight ss.
Proof.
  induction 1 as [|e ss ss' _ IH Hok Hstep].
  - intros _. simpl. split; [split; [discriminate | done] | lia].
  - by apply (single_flight_step e ss).
Qed.

(** ** Concrete runs of the code as written *)

Definition reply_outcome (t : jsstring) : fetch_outcome :=
  FetchResponse true (Some (JObj [(lit "reply", JStr t)])).

(** Type "a", press Enter, type "b", press Enter: the textarea is never
    disabled and its key handler calls [handleSendMessage] without looking
    at [isBotThinking]. *)
Definition enter_twice : list event :=
  [EvChange (lit "a"); EvKeyDown (lit "Enter") false;
   EvChange (lit "b"); EvKeyDown (lit "Enter") false].

(** C2: the code breaks single flight.  Pressing Enter twice puts two
    requests in flight, and when the first settles its finally block clears
    [isBotThinking] while the second is still in flight: the Send button is
    enabled again and the spec's invariant of section 3 fails. *)
Theorem enter_key_breaks_single_flight :
  exists ss1 ss2,
    run enter_twice initial_session = Some ss1 /\
    List.length (inflight ss1) = 2 /\ isBotThinking (ui ss1) = true /\
    session_step (EvSettle 0 (reply_outcome (lit "A"))) ss1 = Some ss2 /\
    mounted (ui ss2) = true /\ isBotThinking (ui ss2) = false /\ inflight ss2 <> [] /\
    ~ single_flight ss2.
Proof.
  do 2 eexists. split; [vm_compute; reflexivity|].
  split_and!; [reflexivity | reflexivity | vm_compute; reflexivity | reflexivity
              | reflexivity | discriminate |].
  intros Hs. destruct (Hs eq_refl) as [Hiff _]. vm_compute in Hiff.
  assert (false = true) by (apply Hiff; discriminate). discriminate.
Qed.

(** C17: replies are applied in the order the requests settle, not the
    order they were issued: with two requests in flight, a second reply
    that arrives first is shown first, against section 5 of the spec. *)
Theorem replies_follow_settlement_order :
  exists ss,
    run (enter_twice ++ [EvSettle 1 (reply_outcome (lit "B")); EvSettle 0 (reply_outcome (lit "A"))])
        initial_session = Some ss /\
    map (fun m => (sender m, text m)) (messages (ui ss)) =
      [(SUser, JStr (lit "a")); (SUser, JStr (lit "b"));
       (SBot, JStr (lit "B")); (SBot, JStr (lit "A"))].
Proof. eexists. split; [vm_compute; reflexivity | reflexivity]. Qed.

(** C18: a clear while a request is in flight does not cancel it: the
    stale reply lands in the cleared transcript, which then starts with a
    bot message that answers nothing shown (the spec's open question of
    section 9, option (a)). *)
Theorem clear_keeps_stale_reply :
  exists ss,
    run [EvChange (lit "a"); EvClickSend; EvClickClear; EvSettle 0 (reply_outcome (lit "A"))]
        initial_session = Some ss /\
    messages (ui ss) = [bot_message (JStr (lit "A")) 0] /\ inflight ss = [] /\
    isBotThinking (ui ss) = false.
Proof. eexists. split; [vm_compute; reflexivity | split_and!; reflexivity]. Qed.

(** C16: a failure response whose [error] field is a structured object
    (as many APIs send) is stored in [error], and the next render puts that
    object as a child of the toast: React throws and the whole chat
    unmounts. *)
Theorem structured_error_unmounts :
  exists ss,
    run [EvChange (lit "a"); EvClickSend;
         EvSettle 0 (error_obj_outcome [(lit "message", JStr (lit "quota exceeded"))])]
        initial_session = Some ss /\
    render_error (ui ss) = Some TypeError.
Proof. eexists. split; [vm_compute; reflexivity | reflexivity]. Qed.

(** ** What a step does to the transcript and the clock *)

Lemma clear_messages (st : chat_state) : mounted st = true -> messages (handleClearChat st) = [].
Proof. destruct st as [[ms d p e] [f|]]; [discriminate | done]. Qed.

Lemma send_shape ss :
  mounted (ui ss) = true ->
  messages (ui (send ss)) = messages (ui ss) \/
  (exists m, messages (ui (send ss)) = messages (ui ss) ++ [m] /\ timestamp m = clock ss).
Proof.
  intros Hm. destruct (send_cases ss Hm) as [[_ ->] | [_ (st' & -> & Hms & _)]].
  - left. apply commit_fields.
  - right. exists (user_message (trim (newMessage (ui ss))) (clock ss)).
    split; [|reflexivity]. simpl. rewrite (proj1 (commit_fields st')). exact Hms.
Qed.

Lemma send_clock ss : clock (send ss) = clock ss.
Proof. unfold send. destruct (handleSendMessage _ _) as [? []]; done. Qed.

Lemma step_shape e ss ss' :
  session_step e ss = Some ss' ->
  (clock ss <= clock ss')%Z /\
  (messages (ui ss') = messages (ui ss) \/
   (e = EvClickClear /\ messages (ui ss') = []) \/
   (clock ss' = clock ss /\
    exists m, messages (ui ss') = messages (ui ss) ++ [m] /\ timestamp m = clock ss)).
Proof.
  intros Hstep. destruct e as [v|key shift| | | |id r|dt]; simpl in Hstep.
  - destruct (mounted (ui ss)); simplify_eq. split; [simpl; lia|]. left. simpl.
    rewrite (proj1 (commit_fields _)). exact (proj1 (handlers_keep_messages v _)).
  - destruct (mounted (ui ss)) eqn:Hm; [|done].
    destruct (is_enter key shift); simplify_eq; [|split; [lia | by left]].
    rewrite send_clock. split; [lia|].
    destruct (send_shape ss Hm) as [|Hs]; [by left | right; right; split; [done | exact Hs]].
  - destruct (mounted (ui ss)) eqn:Hm; [|done]. destruct (negb _); simpl in Hstep; simplify_eq.
    rewrite send_clock. split; [lia|].
    destruct (send_shape ss Hm) as [|Hs]; [by left | right; right; split; [done | exact Hs]].
  - destruct (mounted (ui ss)) eqn:Hm; simplify_eq. split; [simpl; lia|].
    right; left. simpl. rewrite (proj1 (commit_fields _)). split; [done|]. by apply clear_messages.
  - destruct (mounted (ui ss) && truthy (error (ui ss))); simplify_eq. split; [simpl; lia|].
    left. simpl. rewrite (proj1 (commit_fields _)). exact (proj2 (handlers_keep_messages [] _)).
  - destruct (find_request id (inflight ss)); simplify_eq. split; [simpl; lia|]. simpl.
    rewrite (proj1 (commit_fields _)).
    destruct (resume_transcript (ui ss) r (clock ss)) as [H|(m & H & _ & Ht)]; [by left|].
    right; right. split; [done|]. by exists m.
  - destruct (0 <=? dt)%Z eqn:Hdt; simplify_eq. apply Z.leb_le in Hdt. simpl.
    split; [lia | by left].
Qed.

(** C20: the transcript is append-only: every step other than a Clear
    Chat click keeps every message already shown, in place. *)
Theorem step_append_only e ss ss' :
  session_step e ss = Some ss' -> e <> EvClickClear ->
  messages (ui ss) `prefix_of` messages (ui ss').
Proof.
  intros Hstep Hne. destruct (step_shape e ss ss' Hstep) as (_ & [-> | [[? _] | (_ & m & -> & _)]]).
  - done.
  - done.
  - by exists [m].
Qed.

(** Messages are stamped in order, none later than the clock. *)
Definition stamps_ordered (ss : session) : Prop :=
  StronglySorted (fun a b => (timestamp a <= timestamp b)%Z) (messages (ui ss)) /\
  Forall (fun m => (timestamp m <= clock ss)%Z) (messages (ui ss)).

Lemma StronglySorted_snoc {A} (R : A -> A -> Prop) l x :
  StronglySorted R l -> Forall (fun y => R y x) l -> StronglySorted R (l ++ [x]).
Proof.
  induction 1 as [|a l Hl IH Ha]; intros Hx; simpl; [repeat constructor|].
  inversion Hx; subst. constructor; [by apply IH|]. apply Forall_app. split; [done|]. by constructor.
Qed.

(** C21: whatever the interleaving of events, the transcript's timestamps
    are in order and none is later than the clock: a reply is stamped when
    it is appended, not when its request was sent. *)
Theorem reachable_stamps_ordered ok ss : reachable ok ss -> stamps_ordered ss.
Proof.
  induction 1 as [|e ss ss' _ [Hs Hc] _ Hstep]; [split; constructor|].
  destruct (step_shape e ss ss' Hstep) as (Hle & [Hm | [[_ Hm] | (Hcl & m & Hm & Ht)]]);
    unfold stamps_ordered; rewrite Hm.
  - split; [done|]. eapply Forall_impl; [exact Hc|]. simpl. lia.
  - split; constructor.
  - split.
    + apply StronglySorted_snoc; [done|]. eapply Forall_impl; [exact Hc|]. simpl. lia.
    + apply Forall_app. split; [|constructor; [lia|constructor]].
      eapply Forall_impl; [exact Hc|]. simpl. lia.
Qed.

(** ** Accounting of dispatches *)

(** Request ids are distinct and below the counter. *)
Definition ids_fresh (ss : session) : Prop :=
  NoDup (map req_id (inflight ss)) /\ Forall (fun r => req_id r < next_id ss) (inflight ss).

Lemma remove_request_absent id rs : id ∉ map req_id rs -> remove_request id rs = rs.
Proof.
  induction rs as [|r rs IH]; intros Hn; [done|]. unfold remove_request in *. simpl in *.
  rewrite elem_of_cons in Hn. destruct (Nat.eqb_spec (req_id r) id); [naive_solver|].
  simpl. f_equal. apply IH. naive_solver.
Qed.

Lemma remove_request_found id rs r :
  NoDup (map req_id rs) -> find_request id rs = Some r ->
  S (List.length (remove_request id rs)) = List.length rs.
Proof.
  induction rs as [|r0 rs IH]; simpl; [discriminate|]. intros Hnd Hf.
  apply NoDup_cons in Hnd as [Hnin Hnd]. unfold remove_request in *. simpl.
  destruct (Nat.eqb_spec (req_id r0) id) as [<-|Hne]; simpl.
  - f_equal. fold (remove_request (req_id r0) rs). by rewrite remove_request_absent.
  - rewrite <- (IH Hnd Hf). reflexivity.
Qed.

Lemma remove_request_fresh id ss :
  ids_fresh ss ->
  NoDup (map req_id (remove_request id (inflight ss))) /\
  Forall (fun r => req_id r < next_id ss) (remove_request id (inflight ss)).
Proof.
  intros [Hnd Hlt]. unfold remove_request. split.
  - clear Hlt. induction (inflight ss) as [|r rs IH]; simpl in *; [constructor|].
    apply NoDup_cons in Hnd as [Hnin Hnd]. case_match; simpl; [|by apply IH].
    apply NoDup_cons. split; [|by apply IH]. intros Hin. apply Hnin.
    apply list_elem_of_fmap in Hin as (x & -> & Hx). apply list_elem_of_fmap.
    exists x. split; [done|]. apply list_elem_of_In in Hx. apply list_elem_of_In.
    by apply filter_In in Hx as [? _].
  - apply Forall_forall. intros x Hx. apply list_elem_of_In, filter_In in Hx as [Hx _].
    apply (proj1 (Forall_forall _ _) Hlt). by apply list_elem_of_In.
Qed.

Lemma send_fresh ss : mounted (ui ss) = true -> ids_fresh ss -> ids_fresh (send ss).
Proof.
  intros Hm [Hnd Hlt]. destruct (send_cases ss Hm) as [[_ ->] | [_ (st' & -> & _)]]; [done|].
  unfold ids_fresh. simpl. split.
  - rewrite map_app. apply NoDup_app. split_and!; [done | | apply NoDup_singleton].
    intros x Hx Hx'. apply list_elem_of_fmap in Hx as (r & -> & Hr).
    apply list_elem_of_singleton in Hx'. simpl in Hx'.
    pose proof (proj1 (Forall_forall _ _) Hlt r Hr) as Hrl. simpl in Hrl. lia.
  - apply Forall_app. split; [|repeat constructor; simpl; lia].
    eapply Forall_impl; [exact Hlt|]. simpl. lia.
Qed.

Lemma reachable_ids_fresh ok ss : reachable ok ss -> ids_fresh ss.
Proof.
  induction 1 as [|e ss ss' _ IH _ Hstep]; [split; constructor|].
  destruct e as [v|key shift| | | |id r|dt]; simpl in Hstep; repeat (case_match; simplify_eq);
    try done.
  all: try (apply send_fresh; [|done];
            repeat match goal with H : _ && _ = true |- _ => apply andb_true_iff in H as [? ?] end;
            done).
  by apply remove_request_fresh.
Qed.

(** While mounted, user messages are exactly the bot messages plus the
    requests in flight (section 3: every user message has one completed or
    in-flight dispatch, every dispatch one terminal bot message). *)
Definition dispatch_balance (ss : session) : Prop :=
  mounted (ui ss) = true ->
  count_by is_user (messages (ui ss)) =
    count_by is_bot (messages (ui ss)) + List.length (inflight ss).

Lemma balance_keep ss ss' :
  messages (ui ss') = messages (ui ss) -> inflight ss' = inflight ss ->
  (mounted (ui ss') = true -> mounted (ui ss) = true) ->
  dispatch_balance ss -> dispatch_balance ss'.
Proof. intros Hm Hi Hmt Hb Hm'. rewrite Hm, Hi. by apply Hb, Hmt. Qed.

Lemma balance_send ss :
  mounted (ui ss) = true -> dispatch_balance ss -> dispatch_balance (send ss).
Proof.
  intros Hm Hb. destruct (send_cases ss Hm) as [[_ ->] | [_ (st' & -> & Hms & _)]].
  - apply balance_keep with ss; [apply commit_fields | done | done | done].
  - intros _. simpl. rewrite (proj1 (commit_fields st')), Hms, length_app.
    tutor_simpl. rewrite (Hb Hm). lia.
Qed.

Lemma balance_step e ss ss' :
  ids_fresh ss -> dispatch_balance ss -> no_clear e ss = true ->
  session_step e ss = Some ss' -> dispatch_balance ss'.
Proof.
  intros [Hnd _] Hb Hok Hstep.
  destruct e as [v|key shift| | | |id r|dt]; simpl in Hstep, Hok; try done.
  - destruct (mounted (ui ss)) eqn:Hm; simplify_eq.
    apply balance_keep with ss; [|done|done|done].
    simpl. rewrite (proj1 (commit_fields _)). exact (proj1 (handlers_keep_messages v _)).
  - destruct (mounted (ui ss)) eqn:Hm; [|done].
    destruct (is_enter key shift); simplify_eq; [by apply balance_send | done].
  - destruct (mounted (ui ss)) eqn:Hm; [|done]. destruct (negb _); simpl in Hstep; simplify_eq.
    by apply balance_send.
  - destruct (mounted (ui ss)) eqn:Hm; [|done]. destruct (truthy _); simpl in Hstep; simplify_eq.
    apply balance_keep with ss; [|done|done|done].
    simpl. rewrite (proj1 (commit_fields _)). exact (proj2 (handlers_keep_messages [] _)).
  - destruct (find_request id (inflight ss)) as [rq|] eqn:Hf; simplify_eq.
    intros Hm'. simpl in *. apply commit_mounted in Hm'.
    destruct (settle_fields _ _ _ Hm') as (Hm0 & _ & m & Hms & Hsnd & _).
    rewrite (proj1 (commit_fields _)), Hms.
    pose proof (remove_request_found _ _ _ Hnd Hf) as Hlen.
    tutor_simpl. unfold is_user, is_bot. rewrite Hsnd. simpl. fold is_user is_bot.
    rewrite (Hb Hm0). lia.
  - destruct (0 <=? dt)%Z; simplify_eq. by apply balance_keep with ss.
Qed.

(** C11: in every run without a Clear Chat click, whatever the order of
    keystrokes, clicks and settlements (the Enter key included), while the
    component is mounted the number of user messages equals the number of
    bot messages plus the number of requests in flight. *)
Theorem dispatch_accounting ss : reachable no_clear ss -> dispatch_balance ss.
Proof.
  induction 1 as [|e ss ss' Hr IH Hok Hstep]; [done|].
  apply (balance_step e ss); [by apply (reachable_ids_fresh no_clear) | done | done | done].
Qed.

(** ** A well-behaved gateway never brings the page down *)

Definition texts_renderable (ms : list message) : Prop :=
  Forall (fun m => renderable (text m) = true) ms.

Lemma commit_renderable (st : chat_state) : renderable_state st -> commit st = st.
Proof.
  intros Hr. unfold commit. destruct (render_error st); [done|].
  by destruct (render_ok_of_renderable st Hr) as [v ->].
Qed.

Lemma spec_effect_renderable g now c :
  texts_renderable (c_transcript c) -> renderable (c_error c) = true ->
  texts_renderable (c_transcript (spec_effect g now c)) /\
  renderable (c_error (spec_effect g now c)) = true /\
  c_failure (spec_effect g now c) = c_failure c.
Proof.
  intros Ht He. unfold texts_renderable in *.
  destruct g as [|d|[t|]]; simpl; split_and!; try done;
    apply Forall_app; split; try done; by repeat constructor.
Qed.

Definition displayable (ss : session) : Prop :=
  mounted (ui ss) = true /\ renderable_state (ui ss).

Lemma displayable_commit ss (st : chat_state) :
  mounted st = true -> renderable_state st -> displayable (with_ui ss (commit st)).
Proof. intros Hm Hr. unfold displayable. simpl. by rewrite commit_renderable. Qed.

Lemma displayable_send ss : displayable ss -> displayable (send ss).
Proof.
  intros [Hm [Ht He]]. destruct (send_cases ss Hm) as [[_ ->] | [_ (st' & -> & Hms & _ & Her & _ & Hm')]].
  - by apply displayable_commit.
  - assert (Hr : renderable_state st').
    { split; [rewrite Hms; apply Forall_app; split; [done | by repeat constructor] | by rewrite Her]. }
    unfold displayable. simpl. by rewrite commit_renderable.
Qed.

Lemma displayable_settle ss r :
  displayable ss -> well_formed_outcome r = true ->
  displayable (with_ui ss (commit (snd (sendMessageToGemini_resume r (clock ss) (ui ss))))).
Proof.
  intros [Hm [Ht He]] Hw. apply mounted_failure in Hm.
  pose proof (proj1 (resume_abstract r (clock ss) (ui ss))) as Habs.
  rewrite (resume_conv_refines r (clock ss) (abstract (ui ss))) in Habs; [|done|done].
  rewrite !abstract_chat_state in Habs.
  destruct (spec_effect_renderable (spec_classify r) (clock ss)
              (mkConv (messages (ui ss)) (isBotThinking (ui ss)) (error (ui ss)) (render_error (ui ss))))
    as (Ht' & He' & Hf'); [done | done |].
  rewrite <- Habs in Ht', He', Hf'. simpl in Ht', He', Hf'.
  apply displayable_commit; [apply mounted_failure; simpl; rewrite Hf'; exact Hm | done].
Qed.

(** One step admitted by [gateway_well_behaved] keeps the session
    displayable. *)
Lemma displayable_step e ss ss' :
  displayable ss -> gateway_well_behaved e ss = true -> session_step e ss = Some ss' ->
  displayable ss'.
Proof.
  intros [Hm [Ht He]] Hok Hstep.
  destruct e as [v|key shift| | | |id r|dt]; simpl in Hstep, Hok; rewrite ?Hm in Hstep; simpl in Hstep.
  - simplify_eq. apply displayable_commit.
    + by destruct (ui ss) as [[? ? ? ?] [?|]].
    + split; destruct (ui ss) as [[? ? ? ?] [?|]]; done.
  - destruct (is_enter key shift); simplify_eq; [by apply displayable_send | done].
  - destruct (negb _); simplify_eq. by apply displayable_send.
  - simplify_eq. apply displayable_commit.
    + by destruct (ui ss) as [[? ? ? ?] [?|]].
    + split; destruct (ui ss) as [[? ? ? ?] [?|]]; simpl in *; try done; constructor.
  - destruct (truthy _); simplify_eq. apply displayable_commit.
    + by destruct (ui ss) as [[? ? ? ?] [?|]].
    + split; destruct (ui ss) as [[? ? ? ?] [?|]]; done.
  - destruct (find_request id (inflight ss)); simplify_eq.
    by apply (displayable_settle ss r).
  - destruct (0 <=? dt)%Z; simplify_eq. done.
Qed.

Lemma displayable_initial : displayable initial_session.
Proof. split; [done | split; constructor]. Qed.

Lemma reachable_displayable ss : reachable gateway_well_behaved ss -> displayable ss.
Proof.
  induction 1 as [|e ss ss' _ IH Hok Hstep]; [exact displayable_initial|].
  by apply (displayable_step e ss).
Qed.

(** C12: if every settlement keeps to the gateway contract of section 6
    (a failure carries a non-empty string description, a success has a
    string reply or none), then in every run, whatever the interleaving,
    the component stays mounted and every state renders. *)
Theorem well_behaved_gateway_never_unmounts ss :
  reachable gateway_well_behaved ss -> displayable ss.
Proof.
  induction 1 as [|e ss ss' _ IH Hok Hstep]; [exact displayable_initial|].
  by apply (displayable_step e ss).
Qed.

(** ** Concrete reachable sessions *)

(** Runs events, checking the admission predicate before each. *)
Fixpoint run_guarded (ok : event -> session -> bool) (es : list event) (ss : session)
  : option session :=
  match es with
  | [] => Some ss
  | e :: es' =>
      if ok e ss then
        match session_step e ss with
        | Some ss' => run_guarded ok es' ss'
        | None => None
        end
      else None
  end.

Lemma run_guarded_reachable ok es ss ss' :
  reachable ok ss -> run_guarded ok es ss = Some ss' -> reachable ok ss'.
Proof.
  revert ss. induction es as [|e es IH]; simpl; intros ss Hr Hrun; [by simplify_eq|].
  destruct (ok e ss) eqn:Hok; [|done].
  destruct (session_step e ss) as [ss1|] eqn:Hs; [|done].
  apply (IH ss1); [by apply (reach_step ok e ss ss1) | done].
Qed.

Definition session_after (ok : event -> session -> bool) (es : list event) : session :=
  default initial_session (run_guarded ok es initial_session).

(** A conversation: one reply, a failure, a second message in flight. *)
Definition sample_events : list event :=
  [EvChange (lit "Namaskar"); EvKeyDown (lit "Enter") false; EvTick 5;
   EvSettle 0 (reply_outcome (lit "Namaskar! Kemiti achha?"));
   EvChange (lit "How do I say thank you?"); EvClickSend; EvTick 3;
   EvSettle 1 FetchRejected; EvDismiss;
   EvChange (lit "Again"); EvKeyDown (lit "Enter") false].

Lemma sample_reachable ok :
  run_guarded ok sample_events initial_session = Some (session_after ok sample_events) ->
  reachable ok (session_after ok sample_events).
Proof. apply run_guarded_reachable, reach_init. Qed.

Lemma gated_single_flight_witness :
  reachable enter_gated (session_after enter_gated sample_events) /\
  single_flight (session_after enter_gated sample_events).
Proof.
  assert (Hr : reachable enter_gated (session_after enter_gated sample_events))
    by (apply sample_reachable; vm_compute; reflexivity).
  split; [exact Hr | exact (gated_single_flight _ Hr)].
Defined.

Lemma dispatch_accounting_witness :
  reachable no_clear (session_after no_clear sample_events) /\
  mounted (ui (session_after no_clear sample_events)) = true /\
  count_by is_user (messages (ui (session_after no_clear sample_events))) =
    count_by is_bot (messages (ui (session_after no_clear sample_events))) +
    List.length (inflight (session_after no_clear sample_events)).
Proof.
  assert (Hr : reachable no_clear (session_after no_clear sample_events))
    by (apply sample_reachable; vm_compute; reflexivity).
  assert (Hm : mounted (ui (session_after no_clear sample_events)) = true)
    by (vm_compute; reflexivity).
  split_and!; [exact Hr | exact Hm | exact (dispatch_accounting _ Hr Hm)].
Defined.

Lemma reachable_stamps_ordered_witness :
  reachable any_event (session_after any_event sample_events) /\
  stamps_ordered (session_after any_event sample_events).
Proof.
  assert (Hr : reachable any_event (session_after any_event sample_events))
    by (apply sample_reachable; vm_compute; reflexivity).
  split; [exact Hr | exact (reachable_stamps_ordered any_event _ Hr)].
Defined.

Lemma well_behaved_gateway_never_unmounts_witness :
  reachable gateway_well_behaved (session_after gateway_well_behaved sample_events) /\
  displayable (session_after gateway_well_behaved sample_events).
Proof.
  assert (Hr : reachable gateway_well_behaved (session_after gateway_well_behaved sample_events))
    by (apply sample_reachable; vm_compute; reflexivity).
  split; [exact Hr | exact (well_behaved_gateway_never_unmounts _ Hr)].
Defined.

Lemma step_append_only_witness :
  let ss := session_after any_event sample_events in
  session_step (EvSettle 2 (reply_outcome (lit "Dhanyabad"))) ss =
    Some (default ss (session_step (EvSettle 2 (reply_outcome (lit "Dhanyabad"))) ss)) /\
  EvSettle 2 (reply_outcome (lit "Dhanyabad")) <> EvClickClear /\
  messages (ui ss) `prefix_of`
    messages (ui (default ss (session_step (EvSettle 2 (reply_outcome (lit "Dhanyabad"))) ss))).
Proof.
  intros ss.
  assert (Hs : session_step (EvSettle 2 (reply_outcome (lit "Dhanyabad"))) ss =
               Some (default ss (session_step (EvSettle 2 (reply_outcome (lit "Dhanyabad"))) ss)))
    by (vm_compute; reflexivity).
  assert (Hne : EvSettle 2 (reply_outcome (lit "Dhanyabad")) <> EvClickClear) by discriminate.
  split_and!; [exact Hs | exact Hne | exact (step_append_only _ _ _ Hs Hne)].
Defined.
