(* ===== verification/Protocol.v ===== *)
(** * The spec's Conversation Session Protocol as an abstract machine

    Sections 3 to 5 of the spec describe the protocol the component is
    meant to implement: a transcript, a pending dispatch (at most one) and
    the last error, changed only by [send], by the settlement of the
    pending dispatch, by [reset] and by the dismissal of the error.
    [proto_step] is that machine; its state records the trimmed text of
    the dispatch awaiting its outcome, so that single flight is in the
    type of the state.  [proto_of] reads a session of [Session] as a state
    of the machine, and the refinement theorem shows that every session
    reachable when the Enter key is gated like the Send button and the
    gateway keeps its contract is, read this way, a state the machine
    reaches: each step of the code is a step of the machine or leaves the
    machine's state unchanged. *)

From S2P Require Import Prelude JsString JsValue Hooks Store View Dispatch Session.
From Stdlib Require Import String.
From stdpp Require Import relations.

(** ** The abstract machine *)

Record proto_state : Type := mkProto {
  p_transcript : list message;
  p_awaiting : option jsstring;
  p_error : jsval
}.

Definition proto_init : proto_state := mkProto [] None (JStr []).

(** Settling the pending dispatch with an outcome of class [g]: the
    effect of section 4.2 step 5, then [pending] cleared (step 6). *)
Definition proto_settle (g : gateway_class) (now : Z) (p : proto_state) : proto_state :=
  let c := spec_effect g now (mkConv (p_transcript p) true (p_error p) None) in
  mkProto (c_transcript c) None (c_error c).

Inductive proto_step : proto_state -> proto_state -> Prop :=
| PSend raw now p :
    p_awaiting p = None -> trim raw <> [] ->
    proto_step p (mkProto (p_transcript p ++ [user_message (trim raw) now])
                          (Some (trim raw)) (p_error p))
| PSettle g now t p :
    p_awaiting p = Some t -> proto_step p (proto_settle g now p)
| PReset p :
    proto_step p (mkProto [] (p_awaiting p) (JStr []))
| PDismiss p :
    proto_step p (mkProto (p_transcript p) (p_awaiting p) (JStr [])).

(** ** Reading a session as a state of the machine *)

Definition proto_of (ss : session) : proto_state :=
  mkProto (messages (ui ss)) (option_map req_message (head (inflight ss))) (error (ui ss)).

(** The sessions of the refinement: the Enter key gated and the gateway
    well behaved. *)
Definition gated_well_behaved (e : event) (ss : session) : bool :=
  enter_gated e ss && gateway_well_behaved e ss.

(** ** Lemmas *)

Lemma reachable_mono (ok ok' : event -> session -> bool) ss :
  (forall e ss, ok e ss = true -> ok' e ss = true) -> reachable ok ss -> reachable ok' ss.
Proof.
  intros Himp. induction 1; [constructor|]. eapply reach_step; eauto.
Qed.

Lemma single_flight_initial : single_flight initial_session.
Proof. intros _. simpl. split; [split; [discriminate | done] | lia]. Qed.

Lemma proto_of_commit ss (st : chat_state) :
  proto_of (with_ui ss (commit st)) =
    mkProto (messages st) (option_map req_message (head (inflight ss))) (error st).
Proof. unfold proto_of. simpl. by destruct (commit_fields st) as (-> & _ & -> & _). Qed.

Lemma spec_effect_view g now c c' :
  c_transcript c = c_transcript c' -> c_error c = c_error c' ->
  c_transcript (spec_effect g now c) = c_transcript (spec_effect g now c') /\
  c_error (spec_effect g now c) = c_error (spec_effect g now c').
Proof. intros Ht He. destruct g as [|d|[t|]]; simpl; by rewrite Ht, ?He. Qed.

(** While single flight holds and nothing is thinking, nothing is in
    flight. *)
Lemma single_flight_idle ss :
  single_flight ss -> mounted (ui ss) = true -> isBotThinking (ui ss) = false ->
  inflight ss = [].
Proof.
  intros Hs Hm Hb. destruct (Hs Hm) as [Hiff _].
  destruct (inflight ss) as [|r rs]; [done|]. rewrite Hb in Hiff.
  assert (false = true) by (apply Hiff; done). discriminate.
Qed.

Lemma proto_send ss :
  single_flight ss -> mounted (ui ss) = true -> isBotThinking (ui ss) = false ->
  proto_of (send ss) = proto_of ss \/ proto_step (proto_of ss) (proto_of (send ss)).
Proof.
  intros Hs Hm Hb. pose proof (single_flight_idle ss Hs Hm Hb) as Hnil.
  destruct (send_cases ss Hm) as [[_ ->] | [Hne (st' & -> & Hms & _ & Her & _)]].
  - left. rewrite proto_of_commit. reflexivity.
  - right. assert (Hp : p_awaiting (proto_of ss) = None) by (unfold proto_of; by rewrite Hnil).
    pose proof (PSend _ (clock ss) _ Hp Hne) as Hst.
    unfold proto_of in Hst |- *. simpl in *. destruct (commit_fields st') as (-> & _ & -> & _).
    rewrite Hms, Her. rewrite Hnil in *. simpl in *. exact Hst.
Qed.

(** A well-formed settlement of a mounted component shows, after the
    commit, the transcript and error of the spec's effect (section 4.2
    step 5) on the state with a dispatch pending. *)
Lemma resume_view r now (st : chat_state) :
  mounted st = true -> well_formed_outcome r = true ->
  let c := spec_effect (spec_classify r) now (mkConv (messages st) true (error st) None) in
  messages (commit (snd (sendMessageToGemini_resume r now st))) = c_transcript c /\
  error (commit (snd (sendMessageToGemini_resume r now st))) = c_error c.
Proof.
  intros Hm Hw c. subst c.
  pose proof (proj1 (resume_abstract r now st)) as Habs.
  rewrite (resume_conv_refines r now (abstract st)) in Habs; [|by apply mounted_failure|done].
  destruct (commit_fields (snd (sendMessageToGemini_resume r now st))) as (-> & _ & -> & _).
  rewrite !abstract_chat_state in Habs.
  destruct (spec_effect_view (spec_classify r) now (mkConv (messages st) true (error st) None)
              (mkConv (messages st) (isBotThinking st) (error st) (render_error st)))
    as [Ht He]; [done|done|].
  rewrite Ht, He, <- Habs. split; reflexivity.
Qed.

(** A well-formed settlement of the single request in flight is the
    machine's [PSettle]. *)
Lemma proto_settle_step ss id rq r :
  single_flight ss -> displayable ss -> well_formed_outcome r = true ->
  find_request id (inflight ss) = Some rq ->
  proto_step (proto_of ss)
    (proto_of (mkSession (commit (snd (sendMessageToGemini_resume r (clock ss) (ui ss))))
                         (remove_request id (inflight ss)) (next_id ss) (clock ss))).
Proof.
  intros Hs [Hm _] Hw Hf. destruct (Hs Hm) as [_ Hlen].
  assert (Hone : inflight ss = [rq]).
  { destruct (inflight ss) as [|r0 [|r1 rs]] eqn:E; simpl in *; [discriminate| |lia].
    destruct (Nat.eqb (req_id r0) id); simplify_eq. done. }
  rewrite (remove_request_single _ _ _ Hlen Hf).
  assert (Hp : p_awaiting (proto_of ss) = Some (req_message rq)) by (unfold proto_of; by rewrite Hone).
  destruct (resume_view r (clock ss) (ui ss) Hm Hw) as [Ht He].
  match goal with |- proto_step _ ?q =>
    replace q with (proto_settle (spec_classify r) (clock ss) (proto_of ss));
    [exact (PSettle _ _ _ _ Hp)|] end.
  unfold proto_of, proto_settle. simpl. by rewrite Ht, He.
Qed.

Lemma proto_sim_step e ss ss' :
  single_flight ss -> displayable ss -> gated_well_behaved e ss = true ->
  session_step e ss = Some ss' ->
  proto_of ss' = proto_of ss \/ proto_step (proto_of ss) (proto_of ss').
Proof.
  intros Hs Hd Hok Hstep. destruct Hd as [Hm Hr].
  unfold gated_well_behaved in Hok. apply andb_true_iff in Hok as [Hg Hw].
  destruct e as [v|key shift| | | |id r|dt]; simpl in Hstep, Hg, Hw; rewrite ?Hm in Hstep;
    simpl in Hstep.
  - simplify_eq. left. rewrite proto_of_commit. unfold proto_of.
    by destruct (ui ss) as [[? ? ? ?] [?|]].
  - destruct (is_enter key shift); simplify_eq; [|by left].
    apply proto_send; [done | done | by destruct (isBotThinking (ui ss))].
  - unfold send_disabled in Hstep. destruct (isBotThinking (ui ss)) eqn:Hb; [done|].
    destruct (bool_decide _); simpl in Hstep; simplify_eq. by apply proto_send.
  - simplify_eq. right. rewrite proto_of_commit.
    unfold proto_of. destruct (ui ss) as [[? ? ? ?] [?|]]; [discriminate|].
    exact (PReset (mkProto _ _ _)).
  - destruct (truthy _); simplify_eq. right. rewrite proto_of_commit.
    unfold proto_of. destruct (ui ss) as [[? ? ? ?] [?|]]; [discriminate|].
    exact (PDismiss (mkProto _ _ _)).
  - destruct (find_request id (inflight ss)) as [rq|] eqn:Hf; simplify_eq.
    right. by apply (proto_settle_step ss id rq).
  - destruct (0 <=? dt)%Z; simplify_eq. by left.
Qed.

Lemma gated_invariant ss :
  reachable gated_well_behaved ss ->
  single_flight ss /\ displayable ss /\ rtc proto_step proto_init (proto_of ss).
Proof.
  induction 1 as [|e ss ss' _ (Hs & Hd & Hrtc) Hok Hstep].
  - split_and!; [exact single_flight_initial | exact displayable_initial | apply rtc_refl].
  - pose proof Hok as Hok'. unfold gated_well_behaved in Hok'.
    apply andb_true_iff in Hok' as [Hg Hw]. split_and!.
    + by apply (single_flight_step e ss).
    + by apply (displayable_step e ss).
    + destruct (proto_sim_step e ss ss' Hs Hd Hok Hstep) as [-> | Hp]; [done|].
      by eapply rtc_r.
Qed.

(** ** Invariants of the abstract machine *)

(** No two user messages in a row: every user message but the last one
    is answered before the next is sent. *)
Fixpoint no_user_pair (ms : list message) : bool :=
  match ms with
  | m1 :: ((m2 :: _) as rest) => negb (is_user m1 && is_user m2) && no_user_pair rest
  | _ => true
  end.

Definition last_is_user (ms : list message) : bool :=
  match last ms with
  | Some m => is_user m
  | None => false
  end.

Definition proto_inv (p : proto_state) : Prop :=
  no_user_pair (p_transcript p) = true /\
  (p_awaiting p = None -> last_is_user (p_transcript p) = false).

Lemma no_user_pair_snoc ms m :
  no_user_pair (ms ++ [m]) = no_user_pair ms && negb (last_is_user ms && is_user m).
Proof.
  unfold last_is_user. induction ms as [|m1 ms IH]; [done|].
  destruct ms as [|m2 ms]; [simpl; by destruct (is_user m1), (is_user m)|].
  change ((m1 :: m2 :: ms) ++ [m]) with (m1 :: m2 :: (ms ++ [m])).
  change (no_user_pair (m1 :: m2 :: ms ++ [m])) with
    (negb (is_user m1 && is_user m2) && no_user_pair (m2 :: ms ++ [m])).
  change (m2 :: ms ++ [m]) with ((m2 :: ms) ++ [m]). rewrite IH, last_cons_cons. simpl. by rewrite andb_assoc.
Qed.

Lemma last_is_user_snoc ms m : last_is_user (ms ++ [m]) = is_user m.
Proof. unfold last_is_user. by rewrite last_app. Qed.

Lemma proto_inv_step p q : proto_inv p -> proto_step p q -> proto_inv q.
Proof.
  intros [Hn Hl] Hst. destruct Hst as [raw now p Hp _|g now t p Hp|p|p]; unfold proto_inv; simpl.
  - rewrite no_user_pair_snoc, Hn, (Hl Hp). split; [done | discriminate].
  - unfold proto_settle. split; [|intros _];
      destruct g as [|d|[u|]]; simpl; rewrite ?no_user_pair_snoc, ?last_is_user_snoc, ?Hn;
      by destruct (last_is_user _).
  - done.
  - done.
Qed.

Lemma proto_reachable_inv p : rtc proto_step proto_init p -> proto_inv p.
Proof.
  intros Hr. cut (proto_inv proto_init); [|split; done].
  induction Hr as [|x y z Hxy _ IH]; [done|]. intros Hx. apply IH. by apply (proto_inv_step x).
Qed.

(** ** Refinement *)

(** C3: when the Enter key is gated like the Send button and every
    settlement keeps the gateway contract, every reachable session is,
    read through [proto_of], a state the spec's protocol machine reaches
    from the empty conversation, and [isBotThinking] is exactly the
    machine's pending dispatch. *)
Theorem gated_session_refines_protocol ss :
  reachable gated_well_behaved ss ->
  rtc proto_step proto_init (proto_of ss) /\
  (isBotThinking (ui ss) = true <-> is_Some (p_awaiting (proto_of ss))).
Proof.
  intros Hr. destruct (gated_invariant ss Hr) as (Hs & [Hm _] & Hrtc). split; [done|].
  destruct (Hs Hm) as [Hiff _]. rewrite Hiff. unfold proto_of. simpl.
  destruct (inflight ss) as [|r rs]; simpl; split; intros H; [done | | by eexists | done].
  by destruct H.
Qed.

(** C4: the code as written leaves the spec's protocol: after Enter is
    pressed twice, the transcript holds two user messages in a row, which
    no run of the protocol machine produces. *)
Theorem enter_key_escapes_protocol :
  exists ss, run enter_twice initial_session = Some ss /\
    ~ rtc proto_step proto_init (proto_of ss).
Proof.
  eexists. split; [vm_compute; reflexivity|].
  intros Hr. destruct (proto_reachable_inv _ Hr) as [Hn _]. vm_compute in Hn. discriminate.
Qed.

Lemma gated_session_refines_protocol_witness :
  reachable gated_well_behaved (session_after gated_well_behaved sample_events) /\
  rtc proto_step proto_init (proto_of (session_after gated_well_behaved sample_events)) /\
  (isBotThinking (ui (session_after gated_well_behaved sample_events)) = true <->
   is_Some (p_awaiting (proto_of (session_after gated_well_behaved sample_events)))).
Proof.
  assert (Hr : reachable gated_well_behaved (session_after gated_well_behaved sample_events))
    by (apply sample_reachable; vm_compute; reflexivity).
  split; [exact Hr | exact (gated_session_refines_protocol _ Hr)].
Defined.
