(* ===== verification/MultiFlight.v ===== *)
(** * The code as written against a multi-flight protocol machine

    The Enter key of the textarea (lines 198-203) calls
    [handleSendMessage] whatever [isBotThinking] is, so the code admits
    several dispatches in flight, and the single-flight machine of
    [Protocol] does not describe it.  [multi_step] is the spec's protocol
    (sections 3-5) with the single-flight guard of [send] dropped: its
    state holds the dispatches awaiting their outcome (id and trimmed
    text, in issue order) and a [pending] flag that [send] sets and the
    settlement of any one dispatch clears, as the finally block of
    [sendMessageToGemini] (lines 72-74) does.  [m_of] reads a session of
    [Session] as a state of this machine; every session reachable under
    any events when the gateway keeps its contract is a state the machine
    reaches.  What survives of the spec without the guard is what the
    machine's invariant [multi_inv] says: the awaiting dispatches have
    distinct ids and the flag is only set while one of them is awaiting;
    it no longer says that one is awaiting only while the flag is set. *)

From S2P Require Import Prelude JsString JsValue Hooks Store View Dispatch Session Protocol.
From Stdlib Require Import String.
From stdpp Require Import relations.

(** ** The machine *)

Record multi_state : Type := mkMulti {
  m_transcript : list message;
  m_awaiting : list (nat * jsstring);
  m_pending : bool;
  m_error : jsval
}.

Definition multi_init : multi_state := mkMulti [] [] false (JStr []).

(** Removing the dispatch [id] from those awaiting. *)
Definition multi_remove (id : nat) (ds : list (nat * jsstring)) : list (nat * jsstring) :=
  List.filter (fun d => negb (Nat.eqb d.1 id)) ds.

(** The dispatch [id] settles with an outcome of class [g]: the effect of
    section 4.2 step 5, then [pending] cleared (step 6), whatever other
    dispatches still await. *)
Definition multi_settle (g : gateway_class) (now : Z) (id : nat) (p : multi_state)
  : multi_state :=
  let c := spec_effect g now (mkConv (m_transcript p) true (m_error p) None) in
  mkMulti (c_transcript c) (multi_remove id (m_awaiting p)) false (c_error c).

Inductive multi_step : multi_state -> multi_state -> Prop :=
| MSend raw now id p :
    trim raw <> [] -> id ∉ map fst (m_awaiting p) ->
    multi_step p (mkMulti (m_transcript p ++ [user_message (trim raw) now])
                          (m_awaiting p ++ [(id, trim raw)]) true (m_error p))
| MSettle g now id t p :
    (id, t) ∈ m_awaiting p -> multi_step p (multi_settle g now id p)
| MReset p :
    multi_step p (mkMulti [] (m_awaiting p) (m_pending p) (JStr []))
| MDismiss p :
    multi_step p (mkMulti (m_transcript p) (m_awaiting p) (m_pending p) (JStr [])).

(** What the machine keeps: distinct ids, and [pending] backed by an
    awaiting dispatch. *)
Definition multi_inv (p : multi_state) : Prop :=
  NoDup (map fst (m_awaiting p)) /\ (m_pending p = true -> m_awaiting p <> []).

(** ** Reading a session as a state of the machine *)

Definition dispatch_of (r : request) : nat * jsstring := (req_id r, req_message r).

Definition m_of (ss : session) : multi_state :=
  mkMulti (messages (ui ss)) (map dispatch_of (inflight ss)) (isBotThinking (ui ss))
          (error (ui ss)).

(** ** Lemmas *)

Lemma multi_remove_nodup id ds : NoDup (map fst ds) -> NoDup (map fst (multi_remove id ds)).
Proof.
  induction ds as [|[i t] ds IH]; simpl; [done|]. rewrite NoDup_cons. intros [Hn Hnd].
  destruct (Nat.eqb i id); simpl; [by apply IH|]. rewrite NoDup_cons. split; [|by apply IH].
  intros Hin. apply Hn. apply list_elem_of_fmap in Hin as ([j u] & -> & Hj).
  apply list_elem_of_fmap. exists (j, u). split; [done|].
  apply list_elem_of_In in Hj. apply list_elem_of_In. by apply filter_In in Hj as [? _].
Qed.

Lemma multi_inv_step p q : multi_inv p -> multi_step p q -> multi_inv q.
Proof.
  intros [Hnd Hb] Hst. destruct Hst as [raw now id p _ Hn|g now id t p _|p|p];
    unfold multi_inv; simpl; try done.
  - split; [|intros _; by destruct (m_awaiting p)].
    rewrite map_app. apply NoDup_app. split_and!; [done | | apply NoDup_singleton].
    intros x Hx ->%list_elem_of_singleton. done.
  - split; [by apply multi_remove_nodup | done].
Qed.

Lemma multi_reachable_inv p : rtc multi_step multi_init p -> multi_inv p.
Proof.
  intros Hr. cut (multi_inv multi_init); [|split; [constructor | done]].
  induction Hr as [|x y z Hxy _ IH]; [done|]. intros Hx. apply IH. by apply (multi_inv_step x).
Qed.

Lemma map_remove_request id rs :
  map dispatch_of (remove_request id rs) = multi_remove id (map dispatch_of rs).
Proof.
  unfold remove_request, multi_remove. induction rs as [|r rs IH]; [done|]. simpl.
  destruct (Nat.eqb (req_id r) id); simpl; by rewrite IH.
Qed.

Lemma find_request_dispatch id rs r :
  find_request id rs = Some r -> (id, req_message r) ∈ map dispatch_of rs.
Proof.
  intros Hf. apply find_some in Hf as [Hin Heq]. apply Nat.eqb_eq in Heq as <-.
  apply list_elem_of_fmap. exists r. split; [done|]. by apply list_elem_of_In.
Qed.

Lemma m_of_commit ss (st : chat_state) :
  m_of (with_ui ss (commit st)) =
    mkMulti (messages st) (map dispatch_of (inflight ss)) (isBotThinking st) (error st).
Proof. unfold m_of. simpl. by destruct (commit_fields st) as (-> & -> & -> & _). Qed.

Lemma multi_send ss :
  mounted (ui ss) = true -> ids_fresh ss ->
  m_of (send ss) = m_of ss \/ multi_step (m_of ss) (m_of (send ss)).
Proof.
  intros Hm [_ Hlt].
  destruct (send_cases ss Hm) as [[_ ->] | [Hne (st' & -> & Hms & Hb & Her & _)]].
  - left. rewrite m_of_commit. reflexivity.
  - right. assert (Hn : next_id ss ∉ map fst (m_awaiting (m_of ss))).
    { simpl. rewrite map_map. intros Hin. apply list_elem_of_fmap in Hin as (r & Hr & Hin).
      pose proof (proj1 (Forall_forall _ _) Hlt r Hin). unfold dispatch_of in Hr. simpl in *. lia. }
    pose proof (MSend _ (clock ss) _ _ Hne Hn) as Hst.
    unfold m_of in Hst |- *. simpl in *. destruct (commit_fields st') as (-> & -> & -> & _).
    rewrite Hms, Hb, Her, map_app. exact Hst.
Qed.

(** A well-formed settlement of any request in flight is the machine's
    [MSettle]. *)
Lemma multi_settle_step ss id rq r :
  displayable ss -> well_formed_outcome r = true -> find_request id (inflight ss) = Some rq ->
  multi_step (m_of ss)
    (m_of (mkSession (commit (snd (sendMessageToGemini_resume r (clock ss) (ui ss))))
                     (remove_request id (inflight ss)) (next_id ss) (clock ss))).
Proof.
  intros Hd Hw Hf. pose proof (displayable_settle ss r Hd Hw) as [Hm' _].
  destruct Hd as [Hm _]. simpl in Hm'. apply commit_mounted in Hm'.
  destruct (settle_fields _ _ _ Hm') as (_ & Hb & _).
  destruct (resume_view r (clock ss) (ui ss) Hm Hw) as [Ht He].
  pose proof (MSettle (spec_classify r) (clock ss) id _ (m_of ss) (find_request_dispatch _ _ _ Hf))
    as Hst.
  match goal with |- multi_step _ ?q => replace q with (multi_settle (spec_classify r) (clock ss) id (m_of ss)) end;
    [exact Hst|].
  unfold m_of, multi_settle. simpl. rewrite Ht, He, map_remove_request.
  by rewrite (proj1 (proj2 (commit_fields _))), Hb.
Qed.

Lemma multi_sim_step e ss ss' :
  ids_fresh ss -> displayable ss -> gateway_well_behaved e ss = true ->
  session_step e ss = Some ss' ->
  m_of ss' = m_of ss \/ multi_step (m_of ss) (m_of ss').
Proof.
  intros Hf Hd Hw Hstep. pose proof Hd as [Hm Hr].
  destruct e as [v|key shift| | | |id r|dt]; simpl in Hstep, Hw; rewrite ?Hm in Hstep;
    simpl in Hstep.
  - simplify_eq. left. rewrite m_of_commit. unfold m_of.
    by destruct (ui ss) as [[? ? ? ?] [?|]].
  - destruct (is_enter key shift); simplify_eq; [by apply multi_send | by left].
  - destruct (negb _); simpl in Hstep; simplify_eq. by apply multi_send.
  - simplify_eq. right. rewrite m_of_commit.
    unfold m_of. destruct (ui ss) as [[? ? ? ?] [?|]]; [discriminate|].
    exact (MReset (mkMulti _ _ _ _)).
  - destruct (truthy _); simplify_eq. right. rewrite m_of_commit.
    unfold m_of. destruct (ui ss) as [[? ? ? ?] [?|]]; [discriminate|].
    exact (MDismiss (mkMulti _ _ _ _)).
  - destruct (find_request id (inflight ss)) as [rq|] eqn:Hfr; simplify_eq.
    right. by apply (multi_settle_step ss id rq).
  - destruct (0 <=? dt)%Z; simplify_eq. by left.
Qed.

Lemma multi_reachable ss :
  reachable gateway_well_behaved ss -> rtc multi_step multi_init (m_of ss).
Proof.
  intros Hr. induction Hr as [|e ss ss' Hr IH Hok Hstep]; [apply rtc_refl|].
  destruct (multi_sim_step e ss ss' (reachable_ids_fresh _ _ Hr) (reachable_displayable _ Hr)
              Hok Hstep) as [-> | Hp]; [done|].
  by eapply rtc_r.
Qed.

(** ** Refinement *)

(** C5: under any sequence of events, the ungated Enter key included,
    when every settlement keeps the gateway contract, every reachable
    session is, read through [m_of], a state the multi-flight protocol
    machine reaches from the empty conversation; so the requests in flight
    have distinct ids, and [isBotThinking] is only set while one of them
    is in flight. *)
Theorem ungated_session_refines_multi ss :
  reachable gateway_well_behaved ss ->
  rtc multi_step multi_init (m_of ss) /\ NoDup (map req_id (inflight ss)) /\
  (isBotThinking (ui ss) = true -> inflight ss <> []).
Proof.
  intros Hr. pose proof (multi_reachable ss Hr) as Hrtc.
  destruct (multi_reachable_inv _ Hrtc) as [Hnd Hb]. simpl in Hnd, Hb.
  rewrite map_map in Hnd. split_and!; [done | exact Hnd |].
  intros Hth Hnil. apply (Hb Hth). by rewrite Hnil.
Qed.

(** Two messages sent with the Enter key, then the first one answered:
    one request is still in flight and the typing indicator is off. *)
Definition enter_twice_one_settled : list event :=
  enter_twice ++ [EvSettle 0 (reply_outcome (lit "ok"))].

Lemma ungated_session_refines_multi_witness :
  let ss := session_after gateway_well_behaved enter_twice_one_settled in
  reachable gateway_well_behaved ss /\
  (rtc multi_step multi_init (m_of ss) /\ NoDup (map req_id (inflight ss)) /\
   (isBotThinking (ui ss) = true -> inflight ss <> [])) /\
  isBotThinking (ui ss) = false /\ List.length (inflight ss) = 1.
Proof.
  intros ss.
  assert (Hr : reachable gateway_well_behaved ss).
  { apply (run_guarded_reachable gateway_well_behaved enter_twice_one_settled initial_session);
      [constructor|]. vm_compute. reflexivity. }
  split; [exact Hr|]. split; [exact (ungated_session_refines_multi ss Hr)|].
  split; vm_compute; reflexivity.
Defined.
