(* ===== verification/Liveness.v ===== *)
(** * Progress: every dispatch ends, and the session comes to rest

    The spec (section 4.1) asks that no code path start a dispatch and
    leave [pending] permanently true.  Here [pending] is [isBotThinking]:
    it is set only by [sendMessageToGemini_start] together with a request,
    and every settlement of a request runs the finally block of
    [sendMessageToGemini] (lines 72-74).  So in every reachable session,
    whatever the events before (the Enter key included), a thinking
    indicator has a request in flight behind it, and settling the requests
    in flight, in any order and with any outcomes, terminates with none
    in flight and [isBotThinking] false. *)

From S2P Require Import Prelude JsString JsValue Hooks Store View Dispatch Session.
From Stdlib Require Import String.

(** The gateway answers the requests in flight in the order [order] (a
    list of request ids), each with the outcome [outcome] gives it. *)
Definition settle_events (outcome : nat -> fetch_outcome) (order : list nat) : list event :=
  map (fun id => EvSettle id (outcome id)) order.

(** Settle the requests in flight in the order [order]. *)
Definition drain (outcome : nat -> fetch_outcome) (order : list nat) (ss : session)
  : option session :=
  run (settle_events outcome order) ss.

(** A thinking indicator is backed by a request in flight. *)
Definition thinking_backed (ss : session) : Prop :=
  mounted (ui ss) = true -> isBotThinking (ui ss) = true -> inflight ss <> [].

(** At rest: nothing in flight, and the Send button not held by
    [isBotThinking]. *)
Definition at_rest (ss : session) : Prop :=
  inflight ss = [] /\ (mounted (ui ss) = true -> isBotThinking (ui ss) = false).

(** ** Lemmas *)

Lemma thinking_backed_keep ss ss' :
  inflight ss' = inflight ss ->
  (mounted (ui ss') = true ->
   mounted (ui ss) = true /\ isBotThinking (ui ss') = isBotThinking (ui ss)) ->
  thinking_backed ss -> thinking_backed ss'.
Proof. intros Hi Hm Hb Hm'. destruct (Hm Hm') as [Hm0 ->]. rewrite Hi. by apply Hb. Qed.

Lemma thinking_backed_commit ss (st : chat_state) :
  isBotThinking st = isBotThinking (ui ss) -> (mounted st = true -> mounted (ui ss) = true) ->
  thinking_backed ss -> thinking_backed (with_ui ss (commit st)).
Proof.
  intros Hb Hm. apply thinking_backed_keep; [done|]. intros Hm'. simpl in *.
  destruct (commit_fields st) as (_ & -> & _). split; [|done]. by apply Hm, commit_mounted.
Qed.

Lemma thinking_backed_send ss :
  mounted (ui ss) = true -> thinking_backed ss -> thinking_backed (send ss).
Proof.
  intros Hm Hb. destruct (send_cases ss Hm) as [[_ ->] | [_ (st' & -> & _)]].
  - by apply thinking_backed_commit.
  - intros _ _. simpl. by destruct (inflight ss).
Qed.

Lemma thinking_backed_step e ss ss' :
  thinking_backed ss -> session_step e ss = Some ss' -> thinking_backed ss'.
Proof.
  intros Hb Hstep.
  destruct e as [v|key shift| | | |id r|dt]; simpl in Hstep.
  - destruct (mounted (ui ss)) eqn:Hm; simplify_eq.
    apply thinking_backed_commit; [|done|done].
    by destruct (handlers_keep_thinking v (ui ss)) as (? & ? & ?).
  - destruct (mounted (ui ss)) eqn:Hm; [|done].
    destruct (is_enter key shift); simplify_eq; [by apply thinking_backed_send | done].
  - destruct (mounted (ui ss)) eqn:Hm; [|done]. destruct (negb _); simpl in Hstep; simplify_eq.
    by apply thinking_backed_send.
  - destruct (mounted (ui ss)) eqn:Hm; simplify_eq.
    apply thinking_backed_commit; [|done|done].
    by destruct (handlers_keep_thinking [] (ui ss)) as (? & ? & ?).
  - destruct (mounted (ui ss) && truthy (error (ui ss))); simplify_eq.
    apply thinking_backed_commit; [|intros Hm; by destruct (ui ss) as [[? ? ? ?] [?|]] | done].
    by destruct (handlers_keep_thinking [] (ui ss)) as (? & ? & ?).
  - destruct (find_request id (inflight ss)); simplify_eq.
    intros Hm' Hth. simpl in *. apply commit_mounted in Hm'.
    destruct (settle_fields _ _ _ Hm') as (_ & Hf & _).
    rewrite (proj1 (proj2 (commit_fields _))) in Hth. congruence.
  - destruct (0 <=? dt)%Z; simplify_eq. by apply (thinking_backed_keep ss).
Qed.

Lemma reachable_thinking_backed ok ss : reachable ok ss -> thinking_backed ss.
Proof.
  induction 1 as [|e ss ss' _ IH _ Hstep]; [intros _ H; discriminate|].
  by apply (thinking_backed_step e ss).
Qed.

(** Settling a request that is in flight removes it and nothing else. *)
Lemma find_request_elem id rs : id ∈ map req_id rs -> exists r, find_request id rs = Some r.
Proof.
  induction rs as [|r rs IH]; simpl; [by intros ?%elem_of_nil|].
  rewrite elem_of_cons. destruct (Nat.eqb_spec (req_id r) id) as [->|Hne]; [by eexists|].
  intros [->|Hin]; [done | by apply IH].
Qed.

Lemma remove_request_perm id rs :
  NoDup (map req_id rs) -> id ∈ map req_id rs ->
  map req_id rs ≡ₚ id :: map req_id (remove_request id rs).
Proof.
  induction rs as [|r rs IH]; simpl; [by intros _ ?%elem_of_nil|].
  intros Hnd Hin. apply NoDup_cons in Hnd as [Hn Hnd]. unfold remove_request; simpl.
  destruct (Nat.eqb_spec (req_id r) id) as [<-|Hne]; simpl.
  - fold (remove_request (req_id r) rs). by rewrite remove_request_absent.
  - fold (remove_request id rs). rewrite elem_of_cons in Hin.
    destruct Hin as [->|Hin]; [done|]. rewrite (IH Hnd Hin). by constructor.
Qed.

Lemma settle_in_flight ss id o :
  id ∈ map req_id (inflight ss) ->
  session_step (EvSettle id o) ss =
    Some (mkSession (commit (snd (sendMessageToGemini_resume o (clock ss) (ui ss))))
                    (remove_request id (inflight ss)) (next_id ss) (clock ss)).
Proof. intros Hin. destruct (find_request_elem _ _ Hin) as [r Hr]. simpl. by rewrite Hr. Qed.

(** Every request answered: while the component stays mounted, the
    transcript gains one bot message per request settled. *)
Definition answered (ss ss' : session) (n : nat) : Prop :=
  mounted (ui ss') = true ->
  mounted (ui ss) = true /\
  exists bots, messages (ui ss') = messages (ui ss) ++ bots /\ List.length bots = n /\
               Forall (fun m => sender m = SBot) bots.

Lemma settle_answered ss o rs :
  answered ss (mkSession (commit (snd (sendMessageToGemini_resume o (clock ss) (ui ss))))
                         rs (next_id ss) (clock ss)) 1.
Proof.
  intros Hm'. simpl in *. apply commit_mounted in Hm'.
  destruct (settle_fields _ _ _ Hm') as (Hm & _ & m & Hms & Hs & _). split; [done|].
  exists [m]. rewrite (proj1 (commit_fields _)). split_and!; [done | done | by constructor].
Qed.

(** Settling the requests in flight in any order that lists each of
    them once terminates at rest, with every request answered, when at
    least one is in flight. *)
Lemma drain_order outcome order ss :
  NoDup (map req_id (inflight ss)) -> order ≡ₚ map req_id (inflight ss) -> order <> [] ->
  exists ss', drain outcome order ss = Some ss' /\ at_rest ss' /\
              answered ss ss' (List.length (inflight ss)).
Proof.
  revert ss. induction order as [|id order IH]; intros ss Hnd Hp Hne; [done|].
  assert (Hin : id ∈ map req_id (inflight ss)) by (rewrite <- Hp; apply list_elem_of_here).
  unfold drain. change (run (settle_events outcome (id :: order)) ss) with
    (match session_step (EvSettle id (outcome id)) ss with
     | Some ss' => run (settle_events outcome order) ss'
     | None => None
     end).
  rewrite settle_in_flight by done.
  set (ss1 := mkSession (commit (snd (sendMessageToGemini_resume (outcome id) (clock ss) (ui ss))))
                        (remove_request id (inflight ss)) (next_id ss) (clock ss)).
  pose proof (settle_answered ss (outcome id) (remove_request id (inflight ss))
              : answered ss ss1 1) as Hans.
  pose proof (remove_request_perm id _ Hnd Hin) as Hperm.
  assert (Hp1 : order ≡ₚ map req_id (inflight ss1)).
  { apply (Permutation_cons_inv (a:=id)). by rewrite Hp. }
  assert (Hlen : List.length (inflight ss) = S (List.length (inflight ss1))).
  { erewrite <- (length_map req_id (inflight ss)), Hperm. simpl. by rewrite length_map. }
  destruct order as [|id' order'].
  - assert (Hnil : inflight ss1 = []).
    { apply Permutation_nil in Hp1. by destruct (inflight ss1). }
    eexists. split; [reflexivity|]. split; [split; [done|]|].
    + intros Hm'. simpl in *. apply commit_mounted in Hm'.
      destruct (settle_fields _ _ _ Hm') as (_ & Hf & _).
      by rewrite (proj1 (proj2 (commit_fields _))).
    + rewrite Hlen, Hnil. exact Hans.
  - assert (Hnd1 : NoDup (map req_id (inflight ss1))).
    { pose proof Hnd as Hnd'. rewrite Hperm in Hnd'. by apply NoDup_cons in Hnd' as [_ ?]. }
    destruct (IH ss1 Hnd1 Hp1 ltac:(done)) as (ss' & Hrun & Hrest & Hans').
    exists ss'. split_and!; [exact Hrun | exact Hrest |]. rewrite Hlen.
    intros Hm'. destruct (Hans' Hm') as [Hm1 (bots & Hb & Hl & Hs)].
    destruct (Hans Hm1) as [Hm0 (b1 & Hb1 & Hl1 & Hs1)]. split; [done|].
    exists (b1 ++ bots). simpl in *. rewrite Hb, Hb1, app_assoc, length_app, Hl, Hl1.
    split_and!; [done | done | by apply Forall_app].
Qed.

(** ** Progress of the code as written *)

(** C9: from every reachable session, settling the requests in flight
    in any order that names each of them once (the gateway may answer
    them in any order), and with any outcomes, terminates: it ends with no
    request in flight and [isBotThinking] false, and, while the component
    stays mounted, with one bot message appended per request settled. *)
Theorem drain_terminates_at_rest ok outcome order ss :
  reachable ok ss -> order ≡ₚ map req_id (inflight ss) ->
  exists ss', drain outcome order ss = Some ss' /\ at_rest ss' /\
              answered ss ss' (List.length (inflight ss)).
Proof.
  intros Hr Hp. destruct (reachable_ids_fresh ok ss Hr) as [Hnd _].
  destruct order as [|id order]; [|by apply drain_order].
  apply Permutation_nil in Hp. destruct (inflight ss) eqn:Hi; [|done].
  exists ss. split_and!; [done | split; [done|] | ].
  - intros Hm. destruct (isBotThinking (ui ss)) eqn:Hb; [|done].
    by destruct (reachable_thinking_backed ok ss Hr Hm Hb).
  - intros Hm. split; [done|]. exists []. by rewrite app_nil_r.
Qed.

(** Two messages sent with the Enter key, both in flight. *)
Definition two_in_flight : session := session_after any_event enter_twice.

Lemma two_in_flight_reachable : reachable any_event two_in_flight.
Proof.
  apply (run_guarded_reachable any_event enter_twice initial_session); [constructor|].
  vm_compute. reflexivity.
Qed.

Lemma drain_terminates_at_rest_witness :
  reachable any_event two_in_flight /\ [1; 0] ≡ₚ map req_id (inflight two_in_flight) /\
  exists ss', drain (fun _ => FetchRejected) [1; 0] two_in_flight = Some ss' /\ at_rest ss' /\
              answered two_in_flight ss' (List.length (inflight two_in_flight)).
Proof.
  pose proof two_in_flight_reachable as Hr.
  assert (Hp : [1; 0] ≡ₚ map req_id (inflight two_in_flight)).
  { vm_compute. apply Permutation_swap. }
  split_and!; [exact Hr | exact Hp | exact (drain_terminates_at_rest _ (fun _ => FetchRejected) _ _ Hr Hp)].
Defined.

(** ** Fair executions *)

(** An execution: the sessions [es n] and the label [ls n] of the step
    from [es n] to [es (S n)], [None] when nothing happens in between;
    each event is admitted by [ok]. *)
Definition exec_step (ok : event -> session -> bool) (es : nat -> session)
    (ls : nat -> option event) (n : nat) : Prop :=
  match ls n with
  | None => es (S n) = es n
  | Some e => ok e (es n) = true /\ session_step e (es n) = Some (es (S n))
  end.

Definition execution (ok : event -> session -> bool) (es : nat -> session)
    (ls : nat -> option event) : Prop :=
  es 0 = initial_session /\ forall n, exec_step ok es ls n.

(** The gateway answers every request: a request in flight at [n] is
    settled at some later step.  A request leaves the requests in flight
    only through its own settlement, so this is the weak fairness of the
    settlement of each request. *)
Definition gateway_fair (es : nat -> session) (ls : nat -> option event) : Prop :=
  forall n r, r ∈ inflight (es n) ->
  exists m o, ls (n + m) = Some (EvSettle (req_id r) o).

Lemma execution_reachable ok es ls n : execution ok es ls -> reachable ok (es n).
Proof.
  intros [H0 Hex]. induction n as [|n IH]; [rewrite H0; constructor|].
  specialize (Hex n). unfold exec_step in Hex.
  destruct (ls n) as [e|]; [destruct Hex as [Hok Hs]; by econstructor | by rewrite Hex].
Qed.

(** A settlement admitted under the gateway contract turns the typing
    indicator off and leaves a bot message last in the transcript. *)
Lemma settle_answers ss id o ss' :
  reachable gateway_well_behaved ss -> gateway_well_behaved (EvSettle id o) ss = true ->
  session_step (EvSettle id o) ss = Some ss' ->
  isBotThinking (ui ss') = false /\ exists b, last (messages (ui ss')) = Some b /\ sender b = SBot.
Proof.
  intros Hr Hok Hstep.
  pose proof (displayable_step _ _ _ (reachable_displayable _ Hr) Hok Hstep) as [Hm' _].
  simpl in Hstep. destruct (find_request id (inflight ss)); simplify_eq. simpl in *.
  apply commit_mounted in Hm'. destruct (settle_fields _ _ _ Hm') as (_ & Hf & b & Hms & Hb & _).
  destruct (commit_fields (snd (sendMessageToGemini_resume o (clock ss) (ui ss)))) as (-> & -> & _).
  split; [done|]. exists b. by rewrite Hms, last_app.
Qed.

(** C10: in every execution under the gateway contract, the Enter key
    included, in which the gateway answers every request, the typing
    indicator never stays on: whenever [isBotThinking] is set, a later
    state has it cleared and a bot message last in the transcript. *)
Theorem thinking_eventually_answered es ls n :
  execution gateway_well_behaved es ls -> gateway_fair es ls ->
  isBotThinking (ui (es n)) = true ->
  exists m, isBotThinking (ui (es (n + m))) = false /\
            exists b, last (messages (ui (es (n + m)))) = Some b /\ sender b = SBot.
Proof.
  intros Hx Hfair Hth. pose proof (execution_reachable _ _ _ n Hx) as Hr.
  destruct (reachable_displayable _ Hr) as [Hm _].
  destruct (inflight (es n)) as [|r rs] eqn:Hi; [by destruct (reachable_thinking_backed _ _ Hr Hm Hth)|].
  destruct (Hfair n r) as (m & o & Hl); [rewrite Hi; apply list_elem_of_here|].
  pose proof (proj2 Hx (n + m)) as Hs. unfold exec_step in Hs. rewrite Hl in Hs.
  destruct Hs as [Hok Hstep]. exists (S m). rewrite Nat.add_succ_r.
  exact (settle_answers _ _ _ _ (execution_reachable _ _ _ _ Hx) Hok Hstep).
Qed.

(** The execution that follows the labels [ls] from the initial session
    (a label whose step is refused leaves the session as it is). *)
Fixpoint follow (ls : nat -> option event) (n : nat) : session :=
  match n with
  | 0 => initial_session
  | S k =>
      match ls k with
      | Some e => default (follow ls k) (session_step e (follow ls k))
      | None => follow ls k
      end
  end.

(** A message typed, sent, and answered; then nothing more happens. *)
Definition one_answer_labels (n : nat) : option event :=
  match n with
  | 0 => Some (EvChange (lit "a"))
  | 1 => Some EvClickSend
  | 2 => Some (EvSettle 0 (reply_outcome (lit "ok")))
  | _ => None
  end.

Lemma one_answer_tail n : follow one_answer_labels (3 + n) = follow one_answer_labels 3.
Proof. induction n as [|n IH]; [done|]. exact IH. Qed.

Lemma one_answer_execution : execution gateway_well_behaved (follow one_answer_labels) one_answer_labels.
Proof.
  split; [done|]. intros [|[|[|n]]]; unfold exec_step; [vm_compute; by split..|]. done.
Qed.

Lemma one_answer_fair : gateway_fair (follow one_answer_labels) one_answer_labels.
Proof.
  intros [|[|[|n]]] r; [vm_compute; by intros ?%elem_of_nil.. | |].
  - vm_compute. intros ->%list_elem_of_singleton. by exists 0, (reply_outcome (lit "ok")).
  - change (S (S (S n))) with (3 + n). rewrite one_answer_tail. vm_compute. by intros ?%elem_of_nil.
Qed.

Lemma thinking_eventually_answered_witness :
  execution gateway_well_behaved (follow one_answer_labels) one_answer_labels /\
  gateway_fair (follow one_answer_labels) one_answer_labels /\
  isBotThinking (ui (follow one_answer_labels 2)) = true /\
  exists m, isBotThinking (ui (follow one_answer_labels (2 + m))) = false /\
            exists b, last (messages (ui (follow one_answer_labels (2 + m)))) = Some b /\
                      sender b = SBot.
Proof.
  assert (Hth : isBotThinking (ui (follow one_answer_labels 2)) = true) by (vm_compute; reflexivity).
  split_and!; [exact one_answer_execution | exact one_answer_fair | exact Hth |].
  exact (thinking_eventually_answered _ _ 2 one_answer_execution one_answer_fair Hth).
Defined.
