(* ===== verification/Typing.v ===== *)
(** * The shape of the transcript's messages

    Section 3 of the spec types a message's [text] as a non-empty string,
    trimmed at creation.  The code's messages come from three places:
    [handleSendMessage] (the trimmed draft, line 81), the error updater
    (a template literal, line 38) and the reply branch (whatever
    [data.reply] holds, line 50), plus the two fixed texts.  Under the
    gateway contract every text is a non-empty string and every user text
    is trimmed; a reply is stored as the gateway sent it, surrounding
    white space included. *)

From S2P Require Import Prelude JsString JsValue Hooks Store View Dispatch Session.
From Stdlib Require Import String.

(** A message as section 3 of the spec has it: a non-empty string, with
    no white space at either end for a user message. *)
Definition well_typed_message (m : message) : Prop :=
  exists s, text m = JStr s /\ s <> [] /\ (sender m = SUser -> no_ws_ends s).

Definition typed_transcript (ms : list message) : Prop := Forall well_typed_message ms.

(** A message as section 3 of the spec types it: a non-empty string
    trimmed at creation, whoever sent it. *)
Definition spec_message (m : message) : Prop :=
  exists s, text m = JStr s /\ s <> [] /\ no_ws_ends s.

(** ** Lemmas *)

Lemma nonempty_some t t' : nonempty t = Some t' -> t' <> [].
Proof. unfold nonempty. case_bool_decide; intros; simplify_eq. done. Qed.

Lemma spec_classify_reply r t : spec_classify r = GReply (Some t) -> t <> [].
Proof.
  destruct r as [|[] [body|]]; simpl; try discriminate.
  - destruct body as [| | | | | |fs]; try discriminate.
    destruct (lookup_field _ fs) as [[| | | |u| |]|]; intros H; try discriminate.
    injection H as H. by apply (nonempty_some u).
  - destruct body as [| | | | | |fs]; try discriminate.
    destruct (lookup_field _ fs) as [[| | | | | |]|]; discriminate.
Qed.

Lemma bot_text_typed (s : jsstring) now :
  s <> [] -> well_typed_message (bot_message (JStr s) now).
Proof. intros Hs. exists s. split_and!; [done | done | discriminate]. Qed.

Lemma spec_effect_typed r now c :
  typed_transcript (c_transcript c) ->
  typed_transcript (c_transcript (spec_effect (spec_classify r) now c)).
Proof.
  intros Ht. pose proof (spec_classify_reply r) as Hr.
  destruct (spec_classify r) as [|d|[t|]]; simpl; apply Forall_app; split; try done;
    constructor; try constructor; apply bot_text_typed; try done.
  - by apply (Hr t).
Qed.

Lemma user_message_typed s now :
  trim s <> [] -> well_typed_message (user_message (trim s) now).
Proof.
  intros Hs. exists (trim s). split_and!; [done | done |].
  intros _. by destruct (trim_split s) as (? & ? & _ & _ & _ & ?).
Qed.

Lemma typed_send ss :
  mounted (ui ss) = true -> typed_transcript (messages (ui ss)) ->
  typed_transcript (messages (ui (send ss))).
Proof.
  intros Hm Ht. destruct (send_cases ss Hm) as [[_ ->] | [Hne (st' & -> & Hms & _)]].
  - simpl. by rewrite (proj1 (commit_fields _)).
  - simpl. rewrite (proj1 (commit_fields _)), Hms. apply Forall_app. split; [done|].
    constructor; [by apply user_message_typed | constructor].
Qed.

Lemma typed_settle ss r :
  mounted (ui ss) = true -> well_formed_outcome r = true -> typed_transcript (messages (ui ss)) ->
  typed_transcript (messages (commit (snd (sendMessageToGemini_resume r (clock ss) (ui ss))))).
Proof.
  intros Hm Hw Ht. rewrite (proj1 (commit_fields _)).
  pose proof (proj1 (resume_abstract r (clock ss) (ui ss))) as Habs.
  rewrite (resume_conv_refines r (clock ss) (abstract (ui ss))) in Habs;
    [|by apply mounted_failure|done].
  change (messages (snd (sendMessageToGemini_resume r (clock ss) (ui ss))))
    with (c_transcript (abstract (snd (sendMessageToGemini_resume r (clock ss) (ui ss))))).
  rewrite Habs. by apply spec_effect_typed.
Qed.

Lemma typed_step e ss ss' :
  displayable ss -> gateway_well_behaved e ss = true -> typed_transcript (messages (ui ss)) ->
  session_step e ss = Some ss' -> typed_transcript (messages (ui ss')).
Proof.
  intros [Hm _] Hok Ht Hstep.
  destruct e as [v|key shift| | | |id r|dt]; simpl in Hstep, Hok; rewrite ?Hm in Hstep;
    simpl in Hstep.
  - simplify_eq. simpl. rewrite (proj1 (commit_fields _)).
    by rewrite (proj1 (handlers_keep_messages v _)).
  - destruct (is_enter key shift); simplify_eq; [by apply typed_send | done].
  - destruct (negb _); simplify_eq. by apply typed_send.
  - simplify_eq. simpl. rewrite (proj1 (commit_fields _)), clear_messages by done.
    constructor.
  - destruct (truthy _); simplify_eq. simpl. rewrite (proj1 (commit_fields _)).
    by rewrite (proj2 (handlers_keep_messages [] _)).
  - destruct (find_request id (inflight ss)); simplify_eq. by apply typed_settle.
  - destruct (0 <=? dt)%Z; simplify_eq. done.
Qed.

(** ** Message types in every run *)

(** C13: if every settlement keeps the gateway contract, then in every
    reachable session, whatever the interleaving (the ungated Enter key
    included), every message of the transcript has a non-empty string as
    its text, and every user message's text is trimmed. *)
Theorem well_behaved_transcript_typed ss :
  reachable gateway_well_behaved ss -> typed_transcript (messages (ui ss)).
Proof.
  induction 1 as [|e ss ss' Hr Ht Hok Hstep]; [constructor|].
  apply (typed_step e ss); [by apply reachable_displayable | done | done | done].
Qed.

(** A reply with white space around it. *)
Definition padded_reply_events : list event :=
  [EvChange (lit "a"); EvClickSend; EvSettle 0 (reply_outcome (lit " Namaskar "))].

(** C19: a reply is stored as the gateway sent it, so even a gateway that
    keeps its contract leads to a transcript whose last message is not a
    message of the spec's data model (section 3 trims every text at
    creation): the reply [" Namaskar "] keeps its spaces. *)
Theorem reply_text_not_trimmed :
  exists ss,
    run_guarded gateway_well_behaved padded_reply_events initial_session = Some ss /\
    reachable gateway_well_behaved ss /\
    exists m, last (messages (ui ss)) = Some m /\ ~ spec_message m.
Proof.
  eexists. assert (Hrun : run_guarded gateway_well_behaved padded_reply_events initial_session =
                          Some (session_after gateway_well_behaved padded_reply_events))
    by (vm_compute; reflexivity).
  split_and!; [exact Hrun | exact (run_guarded_reachable _ _ _ _ (reach_init _) Hrun) |].
  eexists. split; [vm_compute; reflexivity|].
  intros (s & Hs & _ & [Hh _]). injection Hs as <-. by apply (Hh 32%Z).
Qed.

Lemma well_behaved_transcript_typed_witness :
  reachable gateway_well_behaved (session_after gateway_well_behaved sample_events) /\
  typed_transcript (messages (ui (session_after gateway_well_behaved sample_events))).
Proof.
  assert (Hr : reachable gateway_well_behaved (session_after gateway_well_behaved sample_events))
    by (apply sample_reachable; vm_compute; reflexivity).
  split; [exact Hr | exact (well_behaved_transcript_typed _ Hr)].
Defined.
