(* ===== verification/Json.v ===== *)
(** * The request [sendMessageToGemini] issues (lines 25-29)

    [fetch] is called with the method POST, a JSON content type and the
    body [JSON.stringify({ message })].  [JSON.stringify] writes a string
    with ECMAScript's QuoteJSONString: the seven characters of its table
    (backspace, tab, line feed, form feed, carriage return, quotation mark
    and reverse solidus) are written as two-character escapes, the other
    control characters and every lone surrogate as [\u] followed by four
    lower-case hexadecimal digits, and every other code unit (surrogate
    pairs included) as it is.  [json_string_body] is the reading of a JSON
    string literal by a JSON parser (RFC 8259, section 7), and
    [parse_message_body] the reading of the body as an object with the one
    member [message].  The round-trip theorems show that the gateway
    receives exactly the code units of the message, whatever they are. *)

From S2P Require Import Prelude JsString JsValue Hooks Store Dispatch.
From Stdlib Require Import String.

Local Open Scope Z_scope.

(** ** QuoteJSONString *)

(** The escape letter of the seven characters of the table. *)
Definition json_escape_letter (c : Z) : option Z :=
  if c =? 8 then Some 98            (* \b *)
  else if c =? 9 then Some 116      (* \t *)
  else if c =? 10 then Some 110     (* \n *)
  else if c =? 12 then Some 102     (* \f *)
  else if c =? 13 then Some 114     (* \r *)
  else if c =? 34 then Some 34      (* quotation mark *)
  else if c =? 92 then Some 92      (* reverse solidus *)
  else None.

Definition is_lead_surrogate (c : Z) : bool := (55296 <=? c) && (c <=? 56319).
Definition is_trail_surrogate (c : Z) : bool := (56320 <=? c) && (c <=? 57343).

(** A lower-case hexadecimal digit. *)
Definition hex_digit (n : Z) : Z := if n <? 10 then 48 + n else 87 + n.

(** UnicodeEscape: [\u] and four hexadecimal digits. *)
Definition unicode_escape (c : Z) : jsstring :=
  [92; 117; hex_digit (c / 4096 mod 16); hex_digit (c / 256 mod 16);
   hex_digit (c / 16 mod 16); hex_digit (c mod 16)].

(** One code unit that is not the first half of a surrogate pair. *)
Definition quote_unit (c : Z) : jsstring :=
  match json_escape_letter c with
  | Some e => [92; e]
  | None =>
      if (c <? 32) || is_lead_surrogate c || is_trail_surrogate c then unicode_escape c
      else [c]
  end.

(** The code points of the string, a surrogate pair being one code point
    written as it is. *)
Fixpoint quote_units (s : jsstring) : jsstring :=
  match s with
  | [] => []
  | c :: rest =>
      match rest with
      | d :: rest' =>
          if is_lead_surrogate c && is_trail_surrogate d then c :: d :: quote_units rest'
          else quote_unit c ++ quote_units rest
      | [] => quote_unit c
      end
  end.

Definition quote_json_string (s : jsstring) : jsstring := [34] ++ quote_units s ++ [34].

(** [JSON.stringify({ message })]: [{"message":] then the quoted message
    and [}], with no white space. *)
Definition request_body (message : jsstring) : jsstring :=
  [123] ++ quote_json_string (lit "message") ++ [58] ++ quote_json_string message ++ [125].

(** The request of lines 25-29. *)
Record http_request : Type := mkHttpRequest {
  req_url : jsstring;
  req_method : jsstring;
  req_content_type : jsstring;
  req_body : jsstring
}.

Definition gemini_request (message : jsstring) : http_request :=
  mkHttpRequest (lit "http://localhost:3000/api/gemini") (lit "POST") (lit "application/json")
                (request_body message).

(** ** QuoteJSONString as ECMA-262 writes it

    The specification iterates over [StringToCodePoints(value)]: a
    surrogate pair is one code point above 0xFFFF, a lone surrogate is a
    code point of its own; each code point is escaped by the table, by
    [UnicodeEscape] when below 0x20 or a surrogate, and otherwise encoded
    back with [UTF16EncodeCodePoint].  [quote_units] does this in one pass
    over the code units. *)

(** [UTF16SurrogatePairToCodePoint]. *)
Definition pair_code_point (lead trail : Z) : Z := (lead - 55296) * 1024 + (trail - 56320) + 65536.

(** [StringToCodePoints]: a leading surrogate (0xD800-0xDBFF) followed by
    a trailing one (0xDC00-0xDFFF) is one code point. *)
Fixpoint code_points (s : jsstring) : list Z :=
  match s with
  | [] => []
  | c :: rest =>
      match rest with
      | d :: rest' =>
          if ((55296 <=? c) && (c <=? 56319)) && ((56320 <=? d) && (d <=? 57343))
          then pair_code_point c d :: code_points rest'
          else c :: code_points rest
      | [] => [c]
      end
  end.

Definition utf16_encode (cp : Z) : jsstring :=
  if cp <=? 65535 then [cp]
  else [(cp - 65536) / 1024 + 55296; (cp - 65536) mod 1024 + 56320].

(** Table 73 of ECMA-262, JSON Single Character Escape Sequences, as code
    units: backspace, tab, line feed, form feed, carriage return,
    quotation mark and reverse solidus, each a reverse solidus and a
    letter or itself. *)
Definition ecma_escapes : list (Z * jsstring) :=
  [(8, [92; 98]); (9, [92; 116]); (10, [92; 110]); (12, [92; 102]);
   (13, [92; 114]); (34, [92; 34]); (92, [92; 92])].

(** The lower-case hexadecimal digits of [UnicodeEscape]. *)
Definition ecma_hex_digits : jsstring := lit "0123456789abcdef".

(** [UnicodeEscape(C)]: [\u] and the four hexadecimal digits of [C],
    most significant first. *)
Definition ecma_unicode_escape (cp : Z) : jsstring :=
  [92; 117] ++ map (fun k => nth (Z.to_nat (Z.land (Z.shiftr cp (4 * k)) 15)) ecma_hex_digits 0)
                   [3; 2; 1; 0].

(** The steps of [QuoteJSONString] for one code point. *)
Definition quote_code_point (cp : Z) : jsstring :=
  match List.find (fun e => cp =? e.1) ecma_escapes with
  | Some e => e.2
  | None =>
      if (cp <? 32) || ((55296 <=? cp) && (cp <=? 57343)) then ecma_unicode_escape cp
      else utf16_encode cp
  end.

(** ** Reading JSON (RFC 8259) *)

(** The character an escape letter stands for. *)
Definition json_unescape (e : Z) : option Z :=
  if e =? 34 then Some 34
  else if e =? 92 then Some 92
  else if e =? 47 then Some 47
  else if e =? 98 then Some 8
  else if e =? 102 then Some 12
  else if e =? 110 then Some 10
  else if e =? 114 then Some 13
  else if e =? 116 then Some 9
  else None.

Definition hex_value (c : Z) : option Z :=
  if (48 <=? c) && (c <=? 57) then Some (c - 48)
  else if (97 <=? c) && (c <=? 102) then Some (c - 87)
  else if (65 <=? c) && (c <=? 70) then Some (c - 55)
  else None.

Definition hex4 (a b c d : Z) : option Z :=
  match hex_value a, hex_value b, hex_value c, hex_value d with
  | Some w, Some x, Some y, Some z => Some (((w * 16 + x) * 16 + y) * 16 + z)
  | _, _, _, _ => None
  end.

Definition json_cons (c : Z) (r : option (jsstring * jsstring)) : option (jsstring * jsstring) :=
  match r with
  | Some (s, rest) => Some (c :: s, rest)
  | None => None
  end.

(** The characters of a string literal after its opening quotation mark,
    up to the closing one: the string and what follows it. *)
Fixpoint json_string_body (s : jsstring) : option (jsstring * jsstring) :=
  match s with
  | [] => None
  | c :: rest =>
      if c =? 34 then Some ([], rest)
      else if c =? 92 then
        match rest with
        | e :: rest' =>
            match json_unescape e with
            | Some d => json_cons d (json_string_body rest')
            | None =>
                if e =? 117 then
                  match rest' with
                  | h1 :: h2 :: h3 :: h4 :: r =>
                      match hex4 h1 h2 h3 h4 with
                      | Some d => json_cons d (json_string_body r)
                      | None => None
                      end
                  | _ => None
                  end
                else None
            end
        | [] => None
        end
      else if c <? 32 then None
      else json_cons c (json_string_body rest)
  end.

Definition json_ws (c : Z) : bool := (c =? 9) || (c =? 10) || (c =? 13) || (c =? 32).

Fixpoint skip_json_ws (s : jsstring) : jsstring :=
  match s with
  | c :: t => if json_ws c then skip_json_ws t else s
  | [] => []
  end.

Definition expect_char (c : Z) (s : jsstring) : option jsstring :=
  match skip_json_ws s with
  | d :: t => if d =? c then Some t else None
  | [] => None
  end.

Definition parse_json_string (s : jsstring) : option (jsstring * jsstring) :=
  match expect_char 34 s with
  | Some t => json_string_body t
  | None => None
  end.

(** The body read as an object whose one member is the string
    [message]. *)
Definition parse_message_body (b : jsstring) : option jsstring :=
  match expect_char 123 b with
  | None => None
  | Some t1 =>
      match parse_json_string t1 with
      | Some (k, t2) =>
          if bool_decide (k = lit "message") then
            match expect_char 58 t2 with
            | None => None
            | Some t3 =>
                match parse_json_string t3 with
                | Some (v, t4) =>
                    match expect_char 125 t4 with
                    | Some t5 => if bool_decide (skip_json_ws t5 = []) then Some v else None
                    | None => None
                    end
                | None => None
                end
            end
          else None
      | None => None
      end
  end.

(** Code units are 16-bit. *)
Definition code_units (s : jsstring) : Prop := Forall (fun c => 0 <= c < 65536) s.

(** ** Lemmas *)

Lemma hex_digit_value n : 0 <= n < 16 -> hex_value (hex_digit n) = Some n.
Proof.
  intros Hn. unfold hex_digit, hex_value.
  destruct (Z.ltb_spec n 10).
  - rewrite (proj2 (andb_true_iff _ _)) by (split; apply Z.leb_le; lia). f_equal. lia.
  - assert (Hd : (48 <=? 87 + n) && (87 + n <=? 57) = false)
      by (apply andb_false_iff; right; apply Z.leb_gt; lia).
    rewrite Hd, (proj2 (andb_true_iff _ _)) by (split; apply Z.leb_le; lia). f_equal. lia.
Qed.

Lemma hex4_split c : 0 <= c < 65536 ->
  ((c / 4096 mod 16 * 16 + c / 256 mod 16) * 16 + c / 16 mod 16) * 16 + c mod 16 = c.
Proof.
  intros Hc.
  assert (E1 : c / 256 = c / 16 / 16) by (rewrite Z.div_div by lia; reflexivity).
  assert (E2 : c / 4096 = c / 16 / 16 / 16) by (rewrite !Z.div_div by lia; reflexivity).
  rewrite E1, E2.
  pose proof (Z.div_mod c 16 ltac:(lia)). pose proof (Z.mod_pos_bound c 16 ltac:(lia)).
  pose proof (Z.div_mod (c/16) 16 ltac:(lia)). pose proof (Z.mod_pos_bound (c/16) 16 ltac:(lia)).
  pose proof (Z.div_mod (c/16/16) 16 ltac:(lia)).
  pose proof (Z.mod_pos_bound (c/16/16) 16 ltac:(lia)).
  pose proof (Z.div_mod (c/16/16/16) 16 ltac:(lia)).
  pose proof (Z.mod_pos_bound (c/16/16/16) 16 ltac:(lia)).
  lia.
Qed.

Lemma unicode_escape_read c t :
  0 <= c < 65536 ->
  json_string_body (unicode_escape c ++ t) = json_cons c (json_string_body t).
Proof.
  intros Hc. unfold unicode_escape. simpl. unfold hex4.
  rewrite !hex_digit_value by (apply Z.mod_pos_bound; lia).
  by rewrite hex4_split.
Qed.

Lemma quote_unit_read c t :
  0 <= c < 65536 ->
  json_string_body (quote_unit c ++ t) = json_cons c (json_string_body t).
Proof.
  intros Hc. unfold quote_unit, json_escape_letter.
  repeat match goal with
         | |- context [if ?c =? ?n then _ else _] =>
             destruct (Z.eqb_spec c n) as [->|]; [reflexivity|]
         end.
  destruct ((c <? 32) || is_lead_surrogate c || is_trail_surrogate c) eqn:E;
    [by apply unicode_escape_read|].
  apply orb_false_iff in E as [E _]. apply orb_false_iff in E as [E _].
  apply Z.ltb_ge in E. simpl.
  rewrite (proj2 (Z.eqb_neq c 34)), (proj2 (Z.eqb_neq c 92)) by done.
  by destruct (Z.ltb_spec c 32); [lia|].
Qed.

Lemma surrogate_read c t :
  is_lead_surrogate c || is_trail_surrogate c = true ->
  json_string_body (c :: t) = json_cons c (json_string_body t).
Proof.
  unfold is_lead_surrogate, is_trail_surrogate. intros Hs. simpl.
  assert (55296 <= c) by (apply orb_true_iff in Hs as [Hs|Hs];
                           apply andb_true_iff in Hs as [Hs _]; apply Z.leb_le in Hs; lia).
  rewrite (proj2 (Z.eqb_neq c 34)), (proj2 (Z.eqb_neq c 92)) by lia.
  by destruct (Z.ltb_spec c 32); [lia|].
Qed.

Lemma quote_units_read_pair s :
  code_units s ->
  (forall rest, json_string_body (quote_units s ++ 34 :: rest) = Some (s, rest)) /\
  (forall c rest, 0 <= c < 65536 ->
     json_string_body (quote_units (c :: s) ++ 34 :: rest) = Some (c :: s, rest)).
Proof.
  induction s as [|d s IH]; intros Hs.
  - split; [done|]. intros c rest Hc. simpl. by rewrite quote_unit_read.
  - apply Forall_cons in Hs as [Hd Hs]. destruct (IH Hs) as [IH1 IH2].
    split; [intros rest; by apply IH2|]. intros c rest Hc.
    change (quote_units (c :: d :: s)) with
      (if is_lead_surrogate c && is_trail_surrogate d then c :: d :: quote_units s
       else quote_unit c ++ quote_units (d :: s)).
    destruct (is_lead_surrogate c && is_trail_surrogate d) eqn:E.
    + apply andb_true_iff in E as [Ec Ed]. simpl app.
      rewrite surrogate_read by (rewrite Ec; done).
      rewrite surrogate_read by (rewrite Ed, orb_true_r; done).
      by rewrite IH1.
    + rewrite <- app_assoc, quote_unit_read by done. by rewrite IH2.
Qed.

Lemma quote_units_read s rest :
  code_units s -> json_string_body (quote_units s ++ 34 :: rest) = Some (s, rest).
Proof. intros Hs. by apply quote_units_read_pair. Qed.

Lemma code_units_trim s : code_units s -> code_units (trim s).
Proof.
  intros Hs. destruct (trim_split s) as (p & q & Heq & _).
  unfold code_units in *. rewrite Heq in Hs. by apply Forall_app in Hs as [_ [? _]%Forall_app].
Qed.

Lemma message_key_units : code_units (lit "message").
Proof. repeat constructor; lia. Qed.

Lemma request_body_read m : code_units m -> parse_message_body (request_body m) = Some m.
Proof.
  intros Hm. pose proof message_key_units as Hk. unfold request_body, parse_message_body.
  revert Hk. generalize (lit "message") as k. intros k Hk.
  unfold quote_json_string. rewrite <- !app_assoc. simpl.
  unfold parse_json_string. simpl.
  rewrite quote_units_read by exact Hk. rewrite bool_decide_eq_true_2 by reflexivity.
  simpl. rewrite quote_units_read by exact Hm. reflexivity.
Qed.

Lemma hex_digit_bounds n : 0 <= n < 16 -> 48 <= hex_digit n <= 102.
Proof. intros Hn. unfold hex_digit. destruct (Z.ltb_spec n 10); lia. Qed.

Definition printable (c : Z) : Prop := 32 <= c < 65536.

Lemma quote_unit_bounds c : 0 <= c < 65536 -> Forall printable (quote_unit c).
Proof.
  intros Hc. unfold quote_unit, json_escape_letter, printable.
  repeat match goal with
         | |- context [if ?c =? ?n then _ else _] =>
             destruct (Z.eqb_spec c n) as [->|]; [repeat constructor; lia|]
         end.
  destruct ((c <? 32) || is_lead_surrogate c || is_trail_surrogate c) eqn:E.
  - unfold unicode_escape.
    repeat constructor; try lia;
      match goal with |- context [hex_digit ?n] =>
        assert (0 <= n < 16) by (apply Z.mod_pos_bound; lia);
        pose proof (hex_digit_bounds n); lia end.
  - apply orb_false_iff in E as [E _]. apply orb_false_iff in E as [E _].
    apply Z.ltb_ge in E. repeat constructor; lia.
Qed.

Lemma quote_units_bounds_pair s :
  code_units s ->
  Forall printable (quote_units s) /\
  (forall c, 0 <= c < 65536 -> Forall printable (quote_units (c :: s))).
Proof.
  induction s as [|d s IH]; intros Hs.
  - split; [constructor|]. intros c Hc. by apply quote_unit_bounds.
  - apply Forall_cons in Hs as [Hd Hs]. destruct (IH Hs) as [IH1 IH2].
    split; [by apply IH2|]. intros c Hc.
    change (quote_units (c :: d :: s)) with
      (if is_lead_surrogate c && is_trail_surrogate d then c :: d :: quote_units s
       else quote_unit c ++ quote_units (d :: s)).
    destruct (is_lead_surrogate c && is_trail_surrogate d) eqn:E.
    + unfold is_lead_surrogate, is_trail_surrogate in E.
      apply andb_true_iff in E as [Ec Ed]. apply andb_true_iff in Ec as [Ec _].
      apply andb_true_iff in Ed as [Ed _]. apply Z.leb_le in Ec, Ed.
      constructor; [unfold printable; lia|]. constructor; [unfold printable; lia|]. exact IH1.
    + apply Forall_app. split; [by apply quote_unit_bounds | by apply IH2].
Qed.

Lemma handleSendMessage_issued {S} `{ChatStore S} now (s s' : S) m :
  handleSendMessage now s = (s', Some m) -> m = trim (draft s).
Proof.
  unfold handleSendMessage, sendMessageToGemini_start. case_bool_decide; by intros; simplify_eq.
Qed.

(** ** Round trips and bounds *)

(** C15: a JSON parser reads back exactly the string [JSON.stringify]
    wrote, whatever its code units (control characters, quotation marks,
    surrogate pairs and lone surrogates included), and stops right after
    its closing quotation mark. *)
Theorem json_string_roundtrip s rest :
  code_units s -> parse_json_string (quote_json_string s ++ rest) = Some (s, rest).
Proof.
  intros Hs. unfold parse_json_string, quote_json_string. simpl.
  rewrite <- app_assoc. simpl. by apply quote_units_read.
Qed.

(** C31: the text [JSON.stringify] writes for a string holds only code
    units from the space character up, so no raw control character reaches
    the body, as RFC 8259 requires of a string literal. *)
Theorem quote_json_string_printable s :
  code_units s -> Forall printable (quote_json_string s).
Proof.
  intros Hs. unfold quote_json_string. destruct (quote_units_bounds_pair s Hs) as [Hq _].
  apply Forall_app. split; [repeat constructor; lia|].
  apply Forall_app. split; [done | repeat constructor; lia].
Qed.

(** C14: the request a send issues is a POST to the gateway whose JSON
    body, read back, is an object whose [message] is exactly the trimmed
    draft (section 6: one field carrying the trimmed text). *)
Theorem handleSendMessage_request_body {S} `{ChatStore S} now (s s' : S) m :
  handleSendMessage now s = (s', Some m) -> code_units (draft s) ->
  req_method (gemini_request m) = lit "POST" /\
  parse_message_body (req_body (gemini_request m)) = Some (trim (draft s)).
Proof.
  intros Hsend Hu. rewrite (handleSendMessage_issued now s s' m Hsend).
  split; [done|]. by apply request_body_read, code_units_trim.
Qed.

(** A message with a line feed, a quotation mark, a surrogate pair and a
    lone surrogate. *)
Definition awkward_message : jsstring := [72; 10; 34; 55357; 56832; 55296; 105].

Lemma json_string_roundtrip_witness :
  code_units awkward_message /\
  parse_json_string (quote_json_string awkward_message ++ [125]) = Some (awkward_message, [125]).
Proof.
  assert (Hu : code_units awkward_message) by (repeat constructor; lia).
  split; [exact Hu | exact (json_string_roundtrip _ _ Hu)].
Defined.

Lemma quote_json_string_printable_witness :
  code_units awkward_message /\ Forall printable (quote_json_string awkward_message).
Proof.
  assert (Hu : code_units awkward_message) by (repeat constructor; lia).
  split; [exact Hu | exact (quote_json_string_printable _ Hu)].
Defined.

Lemma handleSendMessage_request_body_witness :
  let st := setNewMessage (lit "  Namaskar ") initial_state in
  handleSendMessage 0 st = (fst (handleSendMessage 0 st), Some (lit "Namaskar")) /\
  code_units (draft st) /\
  req_method (gemini_request (lit "Namaskar")) = lit "POST" /\
  parse_message_body (req_body (gemini_request (lit "Namaskar"))) = Some (trim (draft st)).
Proof.
  intros st.
  assert (Hs : handleSendMessage 0 st = (fst (handleSendMessage 0 st), Some (lit "Namaskar")))
    by (vm_compute; reflexivity).
  assert (Hu : code_units (draft st)) by (vm_compute; repeat constructor; discriminate).
  split_and!; [exact Hs | exact Hu | exact (proj1 (handleSendMessage_request_body _ _ _ _ Hs Hu))
              | exact (proj2 (handleSendMessage_request_body _ _ _ _ Hs Hu))].
Defined.

(** ** QuoteJSONString against its specification *)

Lemma escape_table c :
  option_map snd (List.find (fun e => c =? e.1) ecma_escapes) =
  option_map (fun l => [92; l]) (json_escape_letter c).
Proof. unfold json_escape_letter. simpl. by repeat case_match. Qed.

Lemma hex_digit_nth d : 0 <= d < 16 -> nth (Z.to_nat d) ecma_hex_digits 0 = hex_digit d.
Proof.
  intros Hd. rewrite <- (Z2Nat.id d) at 2 by lia.
  assert (Hn : (Z.to_nat d < 16)%nat) by lia. revert Hn. generalize (Z.to_nat d) as n. intros n Hn.
  do 16 (destruct n as [|n]; [vm_compute; reflexivity|]). lia.
Qed.

Lemma nibble c k : 0 <= k -> Z.land (Z.shiftr c (4 * k)) 15 = c / 2 ^ (4 * k) mod 16.
Proof. intros Hk. rewrite Z.shiftr_div_pow2 by lia. change 15 with (Z.ones 4). by rewrite Z.land_ones. Qed.

Lemma ecma_unicode_escape_eq c : ecma_unicode_escape c = unicode_escape c.
Proof.
  unfold ecma_unicode_escape, unicode_escape. cbn [map app]. rewrite !nibble by lia.
  change (2 ^ (4 * 3)) with 4096. change (2 ^ (4 * 2)) with 256.
  change (2 ^ (4 * 1)) with 16. change (2 ^ (4 * 0)) with 1. rewrite Z.div_1_r.
  rewrite !hex_digit_nth by (apply Z.mod_pos_bound; lia). reflexivity.
Qed.

Lemma surrogate_range c :
  is_lead_surrogate c || is_trail_surrogate c = (55296 <=? c) && (c <=? 57343).
Proof.
  unfold is_lead_surrogate, is_trail_surrogate.
  destruct (Z.leb_spec 55296 c), (Z.leb_spec c 56319), (Z.leb_spec 56320 c), (Z.leb_spec c 57343);
    simpl; try reflexivity; exfalso; lia.
Qed.

Lemma pair_code_point_encode c d :
  is_lead_surrogate c && is_trail_surrogate d = true ->
  quote_code_point (pair_code_point c d) = [c; d].
Proof.
  unfold is_lead_surrogate, is_trail_surrogate, pair_code_point. intros H.
  apply andb_true_iff in H as [Hc Hd]. apply andb_true_iff in Hc as [Hc1 Hc2].
  apply andb_true_iff in Hd as [Hd1 Hd2]. apply Z.leb_le in Hc1, Hc2, Hd1, Hd2.
  set (cp := (c - 55296) * 1024 + (d - 56320) + 65536).
  assert (Hlo : 65536 <= cp) by (subst cp; lia).
  assert (Hj : json_escape_letter cp = None).
  { unfold json_escape_letter. repeat (rewrite (proj2 (Z.eqb_neq cp _)) by lia). reflexivity. }
  pose proof (escape_table cp) as Ht. rewrite Hj in Ht. unfold quote_code_point.
  destruct (List.find (fun e => cp =? e.1) ecma_escapes); [discriminate|].
  rewrite (proj2 (Z.ltb_ge cp 32)), (proj2 (Z.leb_gt cp 57343)) by lia.
  rewrite andb_false_r. simpl.
  unfold utf16_encode. rewrite (proj2 (Z.leb_gt cp 65535)) by lia.
  assert (Hq : (cp - 65536) / 1024 = c - 55296).
  { symmetry. apply Z.div_unique with (d - 56320); [left; lia | subst cp; lia]. }
  assert (Hr : (cp - 65536) mod 1024 = d - 56320).
  { symmetry. apply Z.mod_unique with (c - 55296); [left; lia | subst cp; lia]. }
  rewrite Hq, Hr. f_equal; [lia | f_equal; lia].
Qed.

Lemma quote_code_point_unit c : 0 <= c < 65536 -> quote_code_point c = quote_unit c.
Proof.
  intros Hc. pose proof (escape_table c) as Ht. unfold quote_code_point, quote_unit.
  destruct (List.find (fun e => c =? e.1) ecma_escapes) as [[k v]|];
    destruct (json_escape_letter c); simpl in Ht; simplify_eq; [done|].
  rewrite <- orb_assoc, surrogate_range. destruct (_ || _); [apply ecma_unicode_escape_eq|].
  unfold utf16_encode. by rewrite (proj2 (Z.leb_le c 65535)) by lia.
Qed.

Lemma quote_units_spec_pair s :
  code_units s ->
  quote_units s = flat_map quote_code_point (code_points s) /\
  (forall c, 0 <= c < 65536 -> quote_units (c :: s) = flat_map quote_code_point (code_points (c :: s))).
Proof.
  induction s as [|d s IH]; intros Hs.
  - split; [done|]. intros c Hc. simpl. by rewrite quote_code_point_unit, app_nil_r.
  - apply Forall_cons in Hs as [Hd Hs]. destruct (IH Hs) as [IH1 IH2].
    split; [by apply IH2|]. intros c Hc.
    change (quote_units (c :: d :: s)) with
      (if is_lead_surrogate c && is_trail_surrogate d then c :: d :: quote_units s
       else quote_unit c ++ quote_units (d :: s)).
    change (code_points (c :: d :: s)) with
      (if is_lead_surrogate c && is_trail_surrogate d then pair_code_point c d :: code_points s
       else c :: code_points (d :: s)).
    destruct (is_lead_surrogate c && is_trail_surrogate d) eqn:E; cbn [flat_map].
    + rewrite pair_code_point_encode by done. simpl. by rewrite IH1.
    + rewrite quote_code_point_unit by done. by rewrite (IH2 d Hd).
Qed.

(** C32: the one-pass [quote_units] is ECMA-262's QuoteJSONString, written
    independently of it: over the code points of the string (a surrogate
    pair being one code point, a lone surrogate its own), Table 73's escape
    ([ecma_escapes]), [UnicodeEscape] with digits read off a hexadecimal
    alphabet by shifts and masks ([ecma_unicode_escape]) for control
    characters and surrogates, or the code point encoded back in UTF-16.
    A wrong entry of [json_escape_letter] or a wrong [hex_digit] breaks it. *)
Theorem quote_units_spec s :
  code_units s -> quote_units s = flat_map quote_code_point (code_points s).
Proof. intros Hs. by apply quote_units_spec_pair. Qed.

Lemma quote_units_spec_witness :
  code_units awkward_message /\
  quote_units awkward_message = flat_map quote_code_point (code_points awkward_message).
Proof.
  assert (Hu : code_units awkward_message) by (repeat constructor; lia).
  split; [exact Hu | exact (quote_units_spec _ Hu)].
Defined.
