(* ===== verification/App.v ===== *)
(** * The App shell (App.jsx, lines 5-16)

    [App] renders a heading with the title and, below it, [ChatInterface].
    There is no error boundary anywhere in src/: when the render of
    [ChatInterface] throws, React unmounts the whole root, the heading
    included. *)

From S2P Require Import Prelude JsString JsValue Hooks Store View Dispatch Session.
From Stdlib Require Import String.

Definition app_title : jsstring := lit "Local Language Tutor".

Record app_view : Type := mkAppView {
  a_title : jsstring;
  a_chat : view
}.

(** Lines 5-16: the heading, then [<ChatInterface />]. *)
Definition App (st : chat_state) : js_error + app_view :=
  match render st with
  | inr v => inr (mkAppView app_title v)
  | inl e => inl e
  end.
