(* ===== verification/Scroll.v ===== *)
(** * The scroll effect of [ChatInterface] (lines 8-17)

    [chatContainerRef] holds the transcript's container once it is mounted
    (line 111).  The effect depends on [[messages]]: React runs it after a
    commit in which [messages] is not [Object.is] the previous array.
    Every [setMessages] call of the component builds a new array
    ([[...prev, m]] or [[]]), so the effect runs after exactly the commits
    whose handler called [setMessages] while the component stayed mounted.
    Its body scrolls the container to [scrollHeight]; [scrollTo] clamps
    the position to [0 .. scrollHeight - clientHeight] (CSSOM View), and
    the smooth behaviour only animates towards that position. *)

From S2P Require Import Prelude JsString JsValue Hooks Store View Dispatch Session.
From Stdlib Require Import String.

Record container : Type := mkContainer {
  scroll_top : Z;
  scroll_height : Z;
  client_height : Z
}.

(** [element.scrollTo({ top })]: the position clamped to the scroll
    range. *)
Definition scroll_to (top : Z) (c : container) : container :=
  mkContainer (Z.max 0 (Z.min top (scroll_height c - client_height c)))
              (scroll_height c) (client_height c).

(** Lines 11-16: [if (chatContainerRef.current) ... scrollTo(...)]. *)
Definition scroll_effect (ref : option container) : option container :=
  match ref with
  | Some c => Some (scroll_to (scroll_height c) c)
  | None => None
  end.

(** Whether the handler of [e] calls [setMessages]: a send of a draft
    whose trim is not empty, a clear, and every settlement (each branch of
    [sendMessageToGemini] appends one message). *)
Definition calls_setMessages (e : event) (ss : session) : bool :=
  match e with
  | EvKeyDown key shift => is_enter key shift && negb (bool_decide (trim (newMessage (ui ss)) = []))
  | EvClickSend => negb (bool_decide (trim (newMessage (ui ss)) = []))
  | EvClickClear => true
  | EvSettle _ _ => true
  | _ => false
  end.

(** The effect runs after the step when the handler replaced [messages]
    and the component is still mounted. *)
Definition effect_runs (e : event) (ss ss' : session) : bool :=
  mounted (ui ss') && calls_setMessages e ss.
